(** * Denoising convolutional autoencoder notebook: model and properties

    A shallow embedding of [denoising_autoencoder.ipynb].  The notebook is
    a straight-line script over NumPy, Keras and pyplot:

    - NumPy's element-wise arithmetic is IEEE 754 and is modelled bit for
      bit with the Standard Library's [SpecFloat] (binary32 for
      ['float32'], binary64 for Python floats and ['float64']);
    - an [ndarray] is a dtype, a shape and a row-major buffer;
    - the global [np.random] generator is a state threaded through the
      run; pyplot and Keras calls are recorded in an event log; an
      exception ends the run and keeps what was done before it;
    - the Keras layers are written over the interface of the framework's
      kernels and run on [float32], the dtype of the model, with IEEE 754
      addition and multiplication; the sigmoid kernel (which needs [exp])
      belongs to the framework and is known by what it does to NaN and to
      numbers; training and the writing of the file are functions the run
      is given.

    The definitions come first, in the order of the notebook's cells; the
    properties follow. *)

From Stdlib Require Import String Ascii.
From Stdlib Require Import ZArith QArith Qabs List Bool Lia.
From Stdlib Require Import Floats.SpecFloat.
Import ListNotations.
Local Open Scope Z_scope.

(* ===================================================================== *)
(** * IEEE 754 element types *)
(* ===================================================================== *)

(** The floating dtypes the notebook meets. *)
Inductive fdtype := float32 | float64.

Definition fdtype_eqb (a b : fdtype) : bool :=
  match a, b with
  | float32, float32 | float64, float64 => true
  | _, _ => false
  end.

Definition prec (t : fdtype) : Z :=
  match t with float32 => 24 | float64 => 53 end.

Definition emax (t : fdtype) : Z :=
  match t with float32 => 128 | float64 => 1024 end.

Definition fadd (t : fdtype) := SFadd (prec t) (emax t).
Definition fmul (t : fdtype) := SFmul (prec t) (emax t).
Definition fdiv (t : fdtype) := SFdiv (prec t) (emax t).

(** Rounding of a finite value to the format [t] (a C cast between
    floating types); zeros, infinities and NaN are kept. *)
Definition cast (t : fdtype) (x : spec_float) : spec_float :=
  match x with
  | S754_finite s m e => binary_round (prec t) (emax t) s m e
  | _ => x
  end.

(** Conversion of an array element from dtype [from] to dtype [to]. *)
Definition convert (from to : fdtype) (x : spec_float) : spec_float :=
  if fdtype_eqb from to then x else cast to x.

(** An integer as a value of format [t]. *)
Definition of_Z (t : fdtype) (z : Z) : spec_float :=
  binary_normalize (prec t) (emax t) z 0 false.

(** A Python float literal [m * 2^e] (Python floats are binary64). *)
Definition pyfloat (m e : Z) : spec_float :=
  binary_normalize (prec float64) (emax float64) m e false.

Definition fzero : spec_float := S754_zero false.
Definition fone (t : fdtype) : spec_float := of_Z t 1.

(** The machine test [0 <= x && x <= 1] in format [t]. *)
Definition in_unit (t : fdtype) (x : spec_float) : bool :=
  SFleb fzero x && SFleb x (fone t).

Definition is_nan (x : spec_float) : bool :=
  match x with S754_nan => true | _ => false end.

Definition is_finite (x : spec_float) : bool :=
  match x with S754_zero _ | S754_finite _ _ _ => true | _ => false end.

(** Does the mantissa of a finite float fit in [p] bits? *)
Definition fits (p : Z) (x : spec_float) : bool :=
  match x with
  | S754_finite _ m _ => Zpos m <? 2 ^ p
  | _ => true
  end.

(** The rational a finite float denotes. *)
Definition SF2Q (x : spec_float) : option Q :=
  match x with
  | S754_zero _ => Some 0%Q
  | S754_finite s m e =>
      let v := match e with
               | Zneg p => (Zpos m # Pos.pow 2 p)%Q
               | _ => inject_Z (Zpos m * 2 ^ e)
               end in
      Some (if s then Qopp v else v)
  | _ => None
  end.

(** Are two floats the same datum? *)
Definition sf_eqb (a b : spec_float) : bool :=
  match a, b with
  | S754_zero s1, S754_zero s2 => Bool.eqb s1 s2
  | S754_infinity s1, S754_infinity s2 => Bool.eqb s1 s2
  | S754_nan, S754_nan => true
  | S754_finite s1 m1 e1, S754_finite s2 m2 e2 =>
      Bool.eqb s1 s2 && Pos.eqb m1 m2 && Z.eqb e1 e2
  | _, _ => false
  end.

(** NumPy's dtype promotion for two floating arrays. *)
Definition result_type (a b : fdtype) : fdtype :=
  match a, b with
  | float32, float32 => float32
  | _, _ => float64
  end.

(* ===================================================================== *)
(** * Errors *)
(* ===================================================================== *)

(** The Python exceptions the modelled calls can raise. *)
Inductive exn :=
| ValueError
| IndexError
| TypeError
| ResourceUnavailable
| FrameworkError
| OSError.

Inductive result (A : Type) :=
| Ok (a : A)
| Raise (e : exn).
Arguments Ok {A} a.
Arguments Raise {A} e.

Definition rbind {A B} (r : result A) (k : A -> result B) : result B :=
  match r with
  | Ok a => k a
  | Raise e => Raise e
  end.

(* ===================================================================== *)
(** * ndarrays *)
(* ===================================================================== *)

(** A [uint8] array, as [mnist.load_data] returns. *)
Record u8array := mk_u8 { ushape : list nat; udata : list Z }.

(** The values a [uint8] element can take. *)
Definition is_uint8 (v : Z) : bool := (0 <=? v) && (v <=? 255).
Definition u8_valid (a : u8array) : bool := forallb is_uint8 (udata a).
Definition all_uint8 : list Z := map Z.of_nat (seq 0 256).

(** A floating array. *)
Record farray := mk_f { dtype : fdtype; fshape : list nat; fdata : list spec_float }.

Definition size_of (shape : list nat) : nat := fold_right Nat.mul 1%nat shape.

(** Every NumPy array holds as many elements as its shape says. *)
Definition u8_wf (a : u8array) : Prop := length (udata a) = size_of (ushape a).
Definition wf (a : farray) : Prop := length (fdata a) = size_of (fshape a).

(** [a.astype('float32')] on a [uint8] array. *)
Definition astype_float32 (a : u8array) : farray :=
  mk_f float32 (ushape a) (map (of_Z float32) (udata a)).

(** [a / c] for a Python float [c]: the scalar takes the array's dtype. *)
Definition true_divide (a : farray) (c : spec_float) : farray :=
  mk_f (dtype a) (fshape a)
       (map (fun x => fdiv (dtype a) x (cast (dtype a) c)) (fdata a)).

(** [c * a] for a Python float [c]. *)
Definition multiply (c : spec_float) (a : farray) : farray :=
  mk_f (dtype a) (fshape a)
       (map (fun x => fmul (dtype a) (cast (dtype a) c) x) (fdata a)).

Fixpoint shape_eqb (s1 s2 : list nat) : bool :=
  match s1, s2 with
  | [], [] => true
  | a :: s1', b :: s2' => Nat.eqb a b && shape_eqb s1' s2'
  | _, _ => false
  end.

Fixpoint zip_with {A B C} (f : A -> B -> C) (l1 : list A) (l2 : list B) : list C :=
  match l1, l2 with
  | a :: l1', b :: l2' => f a b :: zip_with f l1' l2'
  | _, _ => []
  end.

(** [a + b] for two arrays of one shape: both operands are converted to
    the promoted dtype and added there.  The notebook only adds arrays of
    equal shape (the noise is drawn with [size=x.shape]); operands of
    different shapes are outside what it does and are rejected here. *)
Definition add (a b : farray) : result farray :=
  if shape_eqb (fshape a) (fshape b) then
    let t := result_type (dtype a) (dtype b) in
    Ok (mk_f t (fshape a)
             (zip_with (fun x y => fadd t (convert (dtype a) t x) (convert (dtype b) t y))
                       (fdata a) (fdata b)))
  else Raise ValueError.

(** [len(a)]: the first dimension; a 0-d array has no length. *)
Definition len (shape : list nat) : result nat :=
  match shape with
  | n :: _ => Ok n
  | [] => Raise TypeError
  end.

(** [np.reshape(a, newshape)]: same buffer, new shape; the element counts
    must agree. *)
Definition reshape (a : farray) (newshape : list nat) : result farray :=
  if Nat.eqb (size_of newshape) (size_of (fshape a))
  then Ok (mk_f (dtype a) newshape (fdata a))
  else Raise ValueError.

(** NumPy's floating [clip] kernel: [min (max x lo) hi], where [max] and
    [min] return their first argument when it is NaN. *)
Definition npy_max (a b : spec_float) : spec_float :=
  if is_nan a then a else if SFltb b a then a else b.

Definition npy_min (a b : spec_float) : spec_float :=
  if is_nan a then a else if SFltb a b then a else b.

Definition npy_clip (x lo hi : spec_float) : spec_float :=
  npy_min (npy_max x lo) hi.

(** [np.clip(a, lo, hi)] with Python float bounds. *)
Definition clip (a : farray) (lo hi : spec_float) : farray :=
  mk_f (dtype a) (fshape a)
       (map (fun x => npy_clip x (cast (dtype a) lo) (cast (dtype a) hi)) (fdata a)).

(** [a[i]]: the [i]-th block along the first axis. *)
Definition getitem (a : farray) (i : nat) : result farray :=
  match fshape a with
  | n :: rest =>
      if Nat.ltb i n
      then Ok (mk_f (dtype a) rest
                    (firstn (size_of rest) (skipn (i * size_of rest) (fdata a))))
      else Raise IndexError
  | [] => Raise IndexError
  end.

(* ===================================================================== *)
(** * The Preprocessor (cell 1, normalisation and reshape) *)
(* ===================================================================== *)

Definition py_255 : spec_float := pyfloat 255 0.
Definition py_0_5 : spec_float := pyfloat 1 (-1).
Definition py_0 : spec_float := pyfloat 0 0.
Definition py_1 : spec_float := pyfloat 1 0.

(** One pixel through [astype('float32') / 255.]. *)
Definition scale (v : Z) : spec_float :=
  fdiv float32 (of_Z float32 v) (cast float32 py_255).

(** [x = x.astype('float32') / 255.; x = np.reshape(x, (len(x), 28, 28, 1))] *)
Definition preprocess (raw : u8array) : result farray :=
  let x := true_divide (astype_float32 raw) py_255 in
  rbind (len (fshape x)) (fun n =>
  reshape x [n; 28; 28; 1]%nat).

(** The clean batch the Preprocessor makes of [N] raw images. *)
Definition clean_of (raw : u8array) (N : nat) : farray :=
  mk_f float32 [N; 28; 28; 1]%nat (map scale (udata raw)).

(* ===================================================================== *)
(** * The global random generator and the Noise Injector *)
(* ===================================================================== *)

(** [np.random]'s global state: the standard-normal deviates it is going
    to hand out, and how many it has handed out so far. *)
Record RandomState := mk_rng { gauss : nat -> spec_float; pos : nat }.

Definition legacy_gauss (st : RandomState) : spec_float * RandomState :=
  (gauss st (pos st), mk_rng (gauss st) (S (pos st))).

Fixpoint draw (n : nat) (st : RandomState) : list spec_float * RandomState :=
  match n with
  | O => ([], st)
  | S n' =>
      let (z, st1) := legacy_gauss st in
      let (zs, st2) := draw n' st1 in
      (z :: zs, st2)
  end.

(** The deviates the next [n] draws of a generator return, and the
    generator after them. *)
Definition deviates (st : RandomState) (n : nat) : list spec_float :=
  map (fun i => gauss st (pos st + i)%nat) (seq 0 n).

Definition advance (st : RandomState) (n : nat) : RandomState :=
  mk_rng (gauss st) (pos st + n).

(** [np.random.normal(loc, scale, size)]: one deviate per element, each
    turned into [loc + scale * z]; the result is a [float64] array. *)
Definition random_normal (loc scale : spec_float) (size : list nat)
    (st : RandomState) : farray * RandomState :=
  let (zs, st') := draw (size_of size) st in
  (mk_f float64 size (map (fun z => fadd float64 loc (fmul float64 scale z)) zs), st').

(** [x + noise_factor * np.random.normal(loc=0.0, scale=1.0, size=x.shape)] *)
Definition add_noise (noise_factor : spec_float) (x : farray)
    (st : RandomState) : result farray * RandomState :=
  let (noise, st') := random_normal py_0 py_1 (fshape x) st in
  (add x (multiply noise_factor noise), st').

(** The Noise Injector: noise, then [np.clip(., 0., 1.)]. *)
Definition inject_noise (noise_factor : spec_float) (x : farray)
    (st : RandomState) : result farray * RandomState :=
  let (r, st') := add_noise noise_factor x st in
  (rbind r (fun noisy => Ok (clip noisy py_0 py_1)), st').

Definition noise_factor : spec_float := py_0_5.

(** What [np.random.normal(loc=0.0, scale=1.0)] makes of the deviate
    [z]. *)
Definition noise_sample (z : spec_float) : spec_float :=
  fadd float64 py_0 (fmul float64 py_1 z).

(** One element of [x + nf * noise], from the clean element [x] (of dtype
    [t]) and the deviate [z] drawn for it. *)
Definition noisy_sum (t : fdtype) (nf x z : spec_float) : spec_float :=
  fadd float64 (convert t float64 x) (fmul float64 (cast float64 nf) (noise_sample z)).

(** The same element after [np.clip(., 0., 1.)]. *)
Definition noisy_pixel (t : fdtype) (nf x z : spec_float) : spec_float :=
  npy_clip (noisy_sum t nf x z) (cast float64 py_0) (cast float64 py_1).

(** The noisy version of the batch [x] under the generator state [st]. *)
Definition noisy (x : farray) (st : RandomState) : farray :=
  mk_f float64 (fshape x)
       (zip_with (noisy_pixel (dtype x) noise_factor) (fdata x)
                 (deviates st (size_of (fshape x)))).

(* ===================================================================== *)
(** * The Keras layer stack (cell 2) *)
(* ===================================================================== *)

Inductive activation := relu | sigmoid.
Inductive padding := same | valid.

(** A layer's configuration.  Arguments the notebook leaves at their Keras
    defaults are not fields: convolution strides are 1 and a bias is used,
    pooling strides equal the pool size, upsampling repeats the nearest
    element. *)
Inductive layer :=
| Conv2D (filters : nat) (kernel_size : nat * nat) (act : activation) (pad : padding)
| MaxPooling2D (pool_size : nat * nat) (pad : padding)
| UpSampling2D (size : nat * nat).

(** A symbolic tensor of the functional API: its per-sample shape and the
    layers between the [Input] it comes from and itself. *)
Record KerasTensor := mk_kt { kshape : list nat; history : list layer }.

Definition Input (shape : list nat) : KerasTensor := mk_kt shape [].

(** Leading padding along one axis. *)
Definition pad_before (p : padding) (n k stride : nat) : nat :=
  match p with
  | valid => 0
  | same =>
      let out := ((n + stride - 1) / stride)%nat in
      (((out - 1) * stride + k - n) / 2)%nat
  end.

(** Output length along one axis for window [k] and stride [stride]. *)
Definition out_len (p : padding) (n k stride : nat) : nat :=
  match p with
  | same => ((n + stride - 1) / stride)%nat
  | valid => if Nat.ltb n k then 0%nat else ((n - k) / stride + 1)%nat
  end.

(** Shape inference rejects a window that does not fit the input. *)
Definition axis_out (p : padding) (n k stride : nat) : result nat :=
  match p with
  | same => Ok (out_len p n k stride)
  | valid => if Nat.ltb n k then Raise ValueError else Ok (out_len p n k stride)
  end.

Definition compute_output_shape (l : layer) (s : list nat) : result (list nat) :=
  match s with
  | [h; w; c] =>
      match l with
      | Conv2D f (kh, kw) _ p =>
          rbind (axis_out p h kh 1) (fun h' =>
          rbind (axis_out p w kw 1) (fun w' => Ok [h'; w'; f]))
      | MaxPooling2D (ph, pw) p =>
          rbind (axis_out p h ph ph) (fun h' =>
          rbind (axis_out p w pw pw) (fun w' => Ok [h'; w'; c]))
      | UpSampling2D (sh, sw) => Ok [h * sh; w * sw; c]%nat
      end
  | _ => Raise ValueError
  end.

(** Calling a layer on a symbolic tensor, [layer(x)]. *)
Definition call (l : layer) (x : KerasTensor) : result KerasTensor :=
  rbind (compute_output_shape l (kshape x)) (fun s =>
  Ok (mk_kt s (history x ++ [l]))).

Record Model := mk_model {
  input_shape : list nat;
  output_shape : list nat;
  layers : list layer
}.

(** [Model(inputs, outputs)]: the layers that lead from [inputs] to
    [outputs]. *)
Definition make_model (inputs outputs : KerasTensor) : Model :=
  mk_model (kshape inputs) (kshape outputs)
           (skipn (length (history inputs)) (history outputs)).

(** Cell 2, lines 91 to 107. *)
Definition build_autoencoder : result Model :=
  let input_img := Input [28; 28; 1]%nat in
  (* encoder *)
  rbind (call (Conv2D 32 (3, 3)%nat relu same) input_img) (fun x =>
  rbind (call (MaxPooling2D (2, 2)%nat same) x) (fun x =>
  rbind (call (Conv2D 16 (3, 3)%nat relu same) x) (fun x =>
  rbind (call (MaxPooling2D (2, 2)%nat same) x) (fun encoded =>
  (* decoder *)
  rbind (call (Conv2D 16 (3, 3)%nat relu same) encoded) (fun x =>
  rbind (call (UpSampling2D (2, 2)%nat) x) (fun x =>
  rbind (call (Conv2D 32 (3, 3)%nat relu same) x) (fun x =>
  rbind (call (UpSampling2D (2, 2)%nat) x) (fun x =>
  rbind (call (Conv2D 1 (3, 3)%nat sigmoid same) x) (fun decoded =>
  Ok (make_model input_img decoded)))))))))).

(** The model of the second cell. *)
Definition autoencoder : Model :=
  match build_autoencoder with
  | Ok m => m
  | Raise _ => mk_model [] [] []
  end.

(** Trainable parameters of a layer, as [summary()] counts them. *)
Definition count_params (l : layer) (channels_in : nat) : nat :=
  match l with
  | Conv2D f (kh, kw) _ _ => (kh * kw * channels_in * f + f)%nat
  | _ => 0%nat
  end.

(** The shape a stack of layers gives a sample of shape [s]. *)
Fixpoint infer_shape (ls : list layer) (s : list nat) : result (list nat) :=
  match ls with
  | [] => Ok s
  | l :: ls' => rbind (compute_output_shape l s) (infer_shape ls')
  end.

Definition same_padded (l : layer) : bool :=
  match l with
  | Conv2D _ _ _ same | MaxPooling2D _ same | UpSampling2D _ => true
  | _ => false
  end.

Fixpoint total_params (ls : list layer) (s : list nat) : nat :=
  match ls with
  | [] => 0
  | l :: ls' =>
      (count_params l (nth 2 s 0) +
       match compute_output_shape l s with
       | Ok s' => total_params ls' s'
       | Raise _ => 0
       end)%nat
  end.

(* ===================================================================== *)
(** * The forward pass *)
(* ===================================================================== *)

(** What the layer kernels need from the element type of the framework's
    tensors. *)
Class Numeric (T : Type) := {
  nzero : T;
  nadd : T -> T -> T;
  nmul : T -> T -> T;
  nmax : T -> T -> T;
  nsigmoid : T -> T
}.

Section Forward.
Context {T : Type} `{Numeric T}.

(** A sample in channels-last layout: rows, columns, channels. *)
Definition image := list (list (list T)).

Definition height (x : image) : nat := length x.
Definition width (x : image) : nat := length (hd [] x).
Definition channels (x : image) : nat := length (hd [] (hd [] x)).

(** The element at row [i], column [j], channel [c], if it exists. *)
Definition pixel (x : image) (i j c : nat) : option T :=
  match nth_error x i with
  | Some row =>
      match nth_error row j with
      | Some px => nth_error px c
      | None => None
      end
  | None => None
  end.

(** The element at padded position [(i, j)], where the padding adds
    [pi] rows above and [pj] columns on the left. *)
Definition padded (x : image) (pi pj i j c : nat) : option T :=
  if (Nat.leb pi i && Nat.leb pj j)%bool
  then pixel x (i - pi) (j - pj) c
  else None.

(** Kernel and bias of one convolution: [kernel di dj c f], [bias f]. *)
Record conv_params := mk_conv {
  kernel : nat -> nat -> nat -> nat -> T;
  bias : nat -> T
}.

Definition activate (a : activation) (v : T) : T :=
  match a with
  | relu => nmax nzero v
  | sigmoid => nsigmoid v
  end.

Definition nsum (l : list T) : T := fold_left nadd l nzero.

(** The products of one output element of a convolution, a zero-padded
    position contributing zero. *)
Definition conv_terms (p : conv_params) (x : image) (kh kw pi pj i j f : nat) : list T :=
  flat_map (fun di =>
    flat_map (fun dj =>
      map (fun c =>
        nmul (match padded x pi pj (i + di) (j + dj) c with
              | Some v => v
              | None => nzero
              end)
             (kernel p di dj c f))
        (seq 0 (channels x)))
      (seq 0 kw))
    (seq 0 kh).

Definition conv2d (filters kh kw : nat) (a : activation) (pad : padding)
    (p : conv_params) (x : image) : image :=
  let pi := pad_before pad (height x) kh 1 in
  let pj := pad_before pad (width x) kw 1 in
  map (fun i =>
    map (fun j =>
      map (fun f =>
        activate a (nadd (nsum (conv_terms p x kh kw pi pj i j f)) (bias p f)))
        (seq 0 filters))
      (seq 0 (out_len pad (width x) kw 1)))
    (seq 0 (out_len pad (height x) kh 1)).

(** The elements of one pooling window that lie inside the image. *)
Definition window (x : image) (ph pw pi pj i j c : nat) : list T :=
  flat_map (fun di =>
    flat_map (fun dj =>
      match padded x pi pj (i * ph + di) (j * pw + dj) c with
      | Some v => [v]
      | None => []
      end)
      (seq 0 pw))
    (seq 0 ph).

Definition nmaximum (l : list T) : T :=
  match l with
  | v :: rest => fold_left nmax rest v
  | [] => nzero
  end.

Definition max_pooling2d (ph pw : nat) (pad : padding) (x : image) : image :=
  let pi := pad_before pad (height x) ph ph in
  let pj := pad_before pad (width x) pw pw in
  map (fun i =>
    map (fun j =>
      map (fun c => nmaximum (window x ph pw pi pj i j c))
        (seq 0 (channels x)))
      (seq 0 (out_len pad (width x) pw pw)))
    (seq 0 (out_len pad (height x) ph ph)).

Definition up_sampling2d (sh sw : nat) (x : image) : image :=
  flat_map (fun row => repeat (flat_map (fun px => repeat px sw) row) sh) x.

Definition apply_layer (l : layer) (p : conv_params) (x : image) : image :=
  match l with
  | Conv2D f (kh, kw) a pad => conv2d f kh kw a pad p x
  | MaxPooling2D (ph, pw) pad => max_pooling2d ph pw pad x
  | UpSampling2D (sh, sw) => up_sampling2d sh sw x
  end.

(** The model's parameters: those of the layer at each position of the
    stack (only the convolutions read theirs). *)
Definition weights := nat -> conv_params.

Fixpoint run_layers (ls : list layer) (k : nat) (W : weights) (x : image) : image :=
  match ls with
  | [] => x
  | l :: ls' => run_layers ls' (S k) W (apply_layer l (W k) x)
  end.

(** Does a sample have the shape [h, w, c]? *)
Definition has_shape (h w c : nat) (x : image) : bool :=
  Nat.eqb (length x) h &&
  forallb (fun row =>
    Nat.eqb (length row) w && forallb (fun px => Nat.eqb (length px) c) row) x.

(** [has_shape] in terms of lengths. *)
Definition shaped (h w c : nat) (x : image) : Prop :=
  length x = h /\
  Forall (fun row => length row = w /\ Forall (fun px => length px = c) row) x.

Definition check_input (m : Model) (x : image) : bool :=
  match input_shape m with
  | [h; w; c] => has_shape h w c x
  | _ => false
  end.

(** The model on a batch: each sample must have the model's input
    shape, and goes through the stack on its own. *)
Definition forward (m : Model) (W : weights) (xs : list image) : result (list image) :=
  if forallb (check_input m) xs
  then Ok (map (run_layers (layers m) 0 W) xs)
  else Raise ValueError.

Definition all_pixels (P : T -> Prop) (x : image) : Prop :=
  Forall (Forall (Forall P)) x.
End Forward.
Arguments image : clear implicits.
Arguments conv_params : clear implicits.
Arguments weights : clear implicits.

(* ===================================================================== *)
(** * The run: generator state, model parameters, calls made *)
(* ===================================================================== *)

Section Notebook.
Context {T : Type} `{Numeric T}.

(** [model.fit]'s arguments; [callbacks] is left at its default. *)
Record fit_args := mk_fit {
  fit_x : farray;
  fit_y : farray;
  epochs : nat;
  batch_size : nat;
  shuffle : bool;
  validation_data : option (farray * farray);
  callbacks : list string
}.

(** The calls the notebook makes to pyplot and to the model. *)
Inductive event :=
| Figure (figsize : nat * nat)
| Subplot (nrows ncols index : nat)
| Imshow (img : farray) (cmap : string)
| Title (label : string)
| Axis (arg : string)
| Show
| Compiled (optimizer loss : string)
| Summary (ls : list layer) (params : nat)
| FitCalled (a : fit_args)
| FitReturned
| Saved (path : string) (W : weights T)
| Predicted (x : farray).

Record World := mk_world {
  rng : RandomState;          (* np.random's global generator *)
  model_weights : weights T;  (* the parameters of the one model *)
  log : list event            (* calls made so far, oldest first *)
}.

Definition set_rng (w : World) (st : RandomState) : World :=
  mk_world st (model_weights w) (log w).

Definition add_log (w : World) (evs : list event) : World :=
  mk_world (rng w) (model_weights w) (log w ++ evs).

Definition M (A : Type) := World -> result A * World.

Definition ret {A} (a : A) : M A := fun w => (Ok a, w).

Definition bind {A B} (m : M A) (k : A -> M B) : M B :=
  fun w =>
    match m w with
    | (Ok a, w') => k a w'
    | (Raise e, w') => (Raise e, w')
    end.

Definition lift {A} (r : result A) : M A := fun w => (r, w).

Definition emit (e : event) : M unit :=
  fun w => (Ok tt, mk_world (rng w) (model_weights w) (log w ++ [e])).

Definition with_rng {A} (f : RandomState -> result A * RandomState) : M A :=
  fun w => let (r, st) := f (rng w) in (r, mk_world st (model_weights w) (log w)).

(** [for i in range(n): body i], starting at [i]. *)
Fixpoint for_range (i n : nat) (body : nat -> M unit) : M unit :=
  match n with
  | O => ret tt
  | S n' => bind (body i) (fun _ => for_range (S i) n' body)
  end.

(** ** pyplot *)

Definition plt_figure (figsize : nat * nat) : M unit := emit (Figure figsize).

(** [plt.subplot(nrows, ncols, index)]: the index counts the cells of
    the grid from 1, row by row. *)
Definition plt_subplot (nrows ncols index : nat) : M unit :=
  if (Nat.leb 1 index && Nat.leb index (nrows * ncols))%bool
  then emit (Subplot nrows ncols index)
  else lift (Raise ValueError).

Definition plt_imshow (img : farray) (cmap : string) : M unit := emit (Imshow img cmap).
Definition plt_title (label : string) : M unit := emit (Title label).
Definition plt_axis (arg : string) : M unit := emit (Axis arg).
Definition plt_show : M unit := emit Show.

(** ** What the run is given *)

Record Env := mk_env {
  (** [mnist.load_data()]: the corpus with its labels, or the failure
      to fetch it. *)
  mnist_load_data : result ((u8array * u8array) * (u8array * u8array));
  (** The optimisation [fit] performs from the current parameters: how
      it ends, and the parameters it leaves in the model. *)
  train : weights T -> fit_args -> result unit * weights T;
  (** The writing of the HDF5 file by [save]: done, or the exception of
      the file system or of the HDF5 library. *)
  save : string -> weights T -> result unit;
  (** The conversions at the NumPy boundary of [predict]. *)
  of_float : spec_float -> T;
  to_float : T -> spec_float
}.

Variable env : Env.

(** ** The model's methods *)

Definition model_compile (optimizer loss : string) : M unit :=
  emit (Compiled optimizer loss).

Definition model_summary (m : Model) : M unit :=
  emit (Summary (layers m) (total_params (layers m) (input_shape m))).

Definition model_fit (a : fit_args) : M unit :=
  bind (emit (FitCalled a)) (fun _ =>
  fun w =>
    match train env (model_weights w) a with
    | (Ok _, W') => (Ok tt, mk_world (rng w) W' (log w ++ [FitReturned]))
    | (Raise e, W') => (Raise e, mk_world (rng w) W' (log w))
    end).

(** [model.save(path)]: the call is recorded once the file is written; a
    failed write raises and leaves no record. *)
Definition model_save (path : string) : M unit :=
  fun w =>
    match save env path (model_weights w) with
    | Ok _ => emit (Saved path (model_weights w)) w
    | Raise e => (Raise e, w)
    end.

(** The first [n] consecutive pieces of [k] elements of a list. *)
Fixpoint chunks {A} (k n : nat) (l : list A) : list (list A) :=
  match n with
  | O => []
  | S n' => firstn k l :: chunks k n' (skipn k l)
  end.

(** An array of shape [(n, h, w, c)] as a batch of [n] samples, and
    back: what [predict] does at its boundary. *)
Definition to_batch (x : farray) : result (list (image T)) :=
  match fshape x with
  | [n; h; w; c] =>
      Ok (map (fun s => map (chunks c w) (chunks (w * c) h s))
              (chunks (h * w * c) n (map (of_float env) (fdata x))))
  | _ => Raise ValueError
  end.

Definition of_batch (shape : list nat) (ys : list (image T)) : farray :=
  mk_f float32 (length ys :: shape)
       (map (to_float env) (concat (concat (concat ys)))).

(** [model.predict(x)]: the samples go through the model; a batch without
    samples leaves [predict] with nothing to return, and it raises. *)
Definition model_predict (m : Model) (x : farray) : M farray :=
  bind (emit (Predicted x)) (fun _ =>
  fun w =>
    (rbind (to_batch x) (fun xs =>
     rbind (forward m (model_weights w) xs) (fun ys =>
     match ys with
     | [] => Raise ValueError
     | _ :: _ => Ok (of_batch (output_shape m) ys)
     end)), w)).

(** ** The cells *)

Local Open Scope string_scope.
Local Open Scope nat_scope.

Notation "x <- m ;; k" := (bind m (fun x => k))
  (at level 61, m at next level, right associativity).
Notation "m ;;; k" := (bind m (fun _ => k))
  (at level 61, right associativity).

(** The arrays the first cell leaves behind. *)
Record dataset := mk_data {
  x_train : farray;
  x_test : farray;
  x_train_noisy : farray;
  x_test_noisy : farray
}.

(** Cell 1, line 40: the images of both splits, labels dropped. *)
Definition load : M (u8array * u8array) :=
  loaded <- lift (mnist_load_data env) ;;
  let '((x_train, _), (x_test, _)) := loaded in
  ret (x_train, x_test).

(** Cell 1, lines 43 to 48: the Preprocessor on both splits. *)
Definition normalise (x_train x_test : u8array) : M (farray * farray) :=
  let x_train := true_divide (astype_float32 x_train) py_255 in
  let x_test := true_divide (astype_float32 x_test) py_255 in
  n_train <- lift (len (fshape x_train)) ;;
  x_train <- lift (reshape x_train [n_train; 28; 28; 1]) ;;
  n_test <- lift (len (fshape x_test)) ;;
  x_test <- lift (reshape x_test [n_test; 28; 28; 1]) ;;
  ret (x_train, x_test).

(** Cell 1, lines 51 to 57: the Noise Injector on both splits. *)
Definition corrupt (x_train x_test : farray) : M (farray * farray) :=
  x_train_noisy <- with_rng (add_noise noise_factor x_train) ;;
  x_test_noisy <- with_rng (add_noise noise_factor x_test) ;;
  let x_train_noisy := clip x_train_noisy py_0 py_1 in
  let x_test_noisy := clip x_test_noisy py_0 py_1 in
  ret (x_train_noisy, x_test_noisy).

Definition load_and_corrupt : M dataset :=
  raw <- load ;;
  clean <- normalise (fst raw) (snd raw) ;;
  noisy <- corrupt (fst clean) (snd clean) ;;
  ret (mk_data (fst clean) (snd clean) (fst noisy) (snd noisy)).

(** [a[i].reshape(28, 28)] *)
Definition sample_image (a : farray) (i : nat) : result farray :=
  rbind (getitem a i) (fun s => reshape s [28; 28]).

(** Cell 1, lines 60 to 71: originals above their noisy versions. *)
Definition show_noisy (d : dataset) : M unit :=
  let n := 10 in
  plt_figure (20, 4) ;;;
  for_range 0 n (fun i =>
    plt_subplot 2 n (i + 1) ;;;
    img <- lift (sample_image (x_test d) i) ;;
    plt_imshow img "gray" ;;;
    plt_title "Original" ;;;
    plt_axis "off" ;;;
    plt_subplot 2 n (i + 1 + n) ;;;
    img <- lift (sample_image (x_test_noisy d) i) ;;
    plt_imshow img "gray" ;;;
    plt_title "Noisy" ;;;
    plt_axis "off") ;;;
  plt_show.

(** Cell 2: build, compile, summarise. *)
Definition define_model : M Model :=
  autoencoder <- lift build_autoencoder ;;
  model_compile "adam" "binary_crossentropy" ;;;
  model_summary autoencoder ;;;
  ret autoencoder.

(** Cell 3: train, then save. *)
Definition train_and_save (d : dataset) : M unit :=
  model_fit (mk_fit (x_train_noisy d) (x_train d) 10 128 true
                    (Some (x_test_noisy d, x_test d)) []) ;;;
  model_save "denoising_autoencoder.h5".

(** Cell 4: denoise the test set and show it under the noisy input. *)
Definition show_denoised (autoencoder : Model) (d : dataset) : M unit :=
  decoded_imgs <- model_predict autoencoder (x_test_noisy d) ;;
  let n := 10 in
  plt_figure (20, 6) ;;;
  for_range 0 n (fun i =>
    plt_subplot 3 n (i + 1) ;;;
    img <- lift (sample_image (x_test_noisy d) i) ;;
    plt_imshow img "gray" ;;;
    plt_title "Noisy" ;;;
    plt_axis "off" ;;;
    plt_subplot 3 n (i + 1 + n) ;;;
    img <- lift (sample_image decoded_imgs i) ;;
    plt_imshow img "gray" ;;;
    plt_title "Denoised" ;;;
    plt_axis "off") ;;;
  plt_show.

(** The notebook, run from top to bottom. *)
Definition notebook : M unit :=
  d <- load_and_corrupt ;;
  show_noisy d ;;;
  autoencoder <- define_model ;;
  train_and_save d ;;;
  show_denoised autoencoder d.
End Notebook.
Arguments Env : clear implicits.
Arguments World : clear implicits.
Arguments event : clear implicits.
Arguments M : clear implicits.

(* ===================================================================== *)
(** * What the log of a run is expected to hold *)
(* ===================================================================== *)

(** Sample [i] of a batch of 28 by 28 by 1 images, as the 28 by 28
    picture handed to [imshow]. *)
Definition picture (a : farray) (i : nat) : farray :=
  mk_f (dtype a) [28; 28]%nat (firstn 784 (skipn (i * 784) (fdata a))).

(** The dataset the first cell computes. *)
Definition first_cell_data (tr te : u8array) (Ntr Nte : nat) (st : RandomState) : dataset :=
  mk_data (clean_of tr Ntr) (clean_of te Nte)
          (noisy (clean_of tr Ntr) st)
          (noisy (clean_of te Nte) (advance st (Ntr * 784))).

Section Expected.
Context {T : Type}.
Local Open Scope string_scope.
Local Open Scope nat_scope.

(** The calls that draw pair [i]: [top]'s sample in column [i] of the
    first row, [bottom]'s in column [i] of the second row, of a grid of
    [rows] rows and [n] columns. *)
Definition pair_events (rows n : nat) (top : farray) (ttop : string)
    (bottom : farray) (tbottom : string) (i : nat) : list (event T) :=
  [ Subplot rows n (i + 1); Imshow (picture top i) "gray"; Title ttop; Axis "off";
    Subplot rows n (i + 1 + n); Imshow (picture bottom i) "gray"; Title tbottom;
    Axis "off" ].

Definition grid_events (figsize : nat * nat) (rows n : nat) (top : farray)
    (ttop : string) (bottom : farray) (tbottom : string) : list (event T) :=
  Figure figsize
  :: concat (map (pair_events rows n top ttop bottom tbottom) (seq 0 n))
  ++ [Show].

Definition is_plot (e : event T) : bool :=
  match e with
  | Figure _ | Subplot _ _ _ | Imshow _ _ | Title _ | Axis _ | Show => true
  | _ => false
  end.

Definition is_predicted (e : event T) : bool :=
  match e with
  | Predicted _ => true
  | _ => false
  end.

Definition plot_or_predict (e : event T) : bool := is_plot e || is_predicted e.

(** The arguments the [fit] call is expected to carry. *)
Definition training_args (d : dataset) : fit_args :=
  mk_fit (x_train_noisy d) (x_train d) 10 128 true (Some (x_test_noisy d, x_test d)) [].

(** The paths written by the [save] calls of a log, in order. *)
Definition saved_paths (evs : list (event T)) : list string :=
  flat_map (fun e => match e with Saved path _ => [path] | _ => [] end) evs.

(** The [fit] calls of a log, in order. *)
Definition fit_calls (evs : list (event T)) : list fit_args :=
  flat_map (fun e => match e with FitCalled a => [a] | _ => [] end) evs.

(** The grid cells, as (row, column) from 0, of the [subplot] calls of a
    log. *)
Definition cells (evs : list (event T)) : list (nat * nat) :=
  flat_map (fun e =>
    match e with
    | Subplot _ ncols index => [((index - 1) / ncols, (index - 1) mod ncols)]
    | _ => []
    end) evs.

(** A computation that does nothing to the world but append calls
    satisfying [P] to the log. *)
Definition only_logs (P : event T -> bool) {A} (m : M T A) : Prop :=
  forall w, exists evs, snd (m w) = add_log w evs /\ forallb P evs = true.
End Expected.

(* ===================================================================== *)
(** * The framework's float32 kernels *)
(* ===================================================================== *)

(** The element-wise sigmoid kernel of the framework on [float32]. *)
Class SigmoidKernel := sigmoid32 : spec_float -> spec_float.

(** What a sigmoid kernel does: NaN goes to NaN, as in every IEEE 754
    operation, and every number, the infinities included, goes to a number
    between 0 and 1. *)
Class SigmoidLaws (K : SigmoidKernel) : Prop := {
  sigmoid32_nan : forall x, is_nan x = true -> is_nan (sigmoid32 x) = true;
  sigmoid32_unit : forall x, is_nan x = false -> in_unit float32 (sigmoid32 x) = true
}.

(** The maximum of the ReLU and pooling kernels: NaN when an operand is
    NaN. *)
Definition maximum32 (a b : spec_float) : spec_float :=
  if is_nan a then a
  else if is_nan b then b
  else if SFltb a b then b else a.

(** The layers on [float32], the dtype of the model: IEEE 754 addition
    and multiplication. *)
#[export] Instance float32_kernels {K : SigmoidKernel} : Numeric spec_float := {|
  nzero := fzero;
  nadd := fadd float32;
  nmul := fmul float32;
  nmax := maximum32;
  nsigmoid := sigmoid32
|}.

(** A sigmoid kernel to run examples with: Keras's [hard_sigmoid], the
    piecewise linear approximation [clip(0.2 * x + 0.5, 0, 1)] of the
    logistic function. *)
Definition hard_sigmoid (x : spec_float) : spec_float :=
  npy_clip (fadd float32 (fmul float32 (cast float32 (pyfloat 3602879701896397 (-54))) x)
                         (cast float32 py_0_5))
           fzero (fone float32).

#[export] Instance hard_sigmoid_kernel : SigmoidKernel := hard_sigmoid.

(* ===================================================================== *)
(** * Sample inputs *)
(* ===================================================================== *)

(** One image whose pixels run through all [uint8] values. *)
Definition sample_raw : u8array :=
  mk_u8 [1; 28; 28]%nat (map (fun n => Z.of_nat (n mod 256)) (seq 0 784)).

(** Four normalised pixels as a small clean batch. *)
Definition sample_clean : farray :=
  mk_f float32 [2; 2]%nat [scale 0; scale 64; scale 128; scale 255].

(** A generator whose deviates alternate between 1 and -2. *)
Definition sample_rng : RandomState :=
  mk_rng (fun k => if Nat.even k
                   then S754_finite false 4503599627370496 (-52)
                   else S754_finite true 4503599627370496 (-51)) 0.

(** Ten test images and their labels. *)
Definition sample_test : u8array :=
  mk_u8 [10; 28; 28]%nat (map (fun n => Z.of_nat (n mod 256)) (seq 0 (10 * 784))).

Definition sample_labels (n : nat) : u8array :=
  mk_u8 [n] (map (fun k => Z.of_nat (k mod 10)) (seq 0 n)).

Definition sample_weights : weights spec_float :=
  fun _ => mk_conv (fun _ _ _ _ => fzero) (fun _ => fzero).

(** A run: a corpus of one training and ten test images, a training that
    leaves the parameters as they are, a file system that takes the file,
    [predict] casting its input to [float32], all parameters 0 at the
    start. *)
Definition sample_env : Env spec_float :=
  mk_env (Ok ((sample_raw, sample_labels 1), (sample_test, sample_labels 10)))
         (fun W _ => (Ok tt, W)) (fun _ _ => Ok tt) (cast float32) (fun v => v).

Definition sample_world : World spec_float := mk_world sample_rng sample_weights [].


(** The four arrays the first cell makes of the sample corpus. *)
Definition sample_data : dataset :=
  mk_data (clean_of sample_raw 1) (clean_of sample_test 10)
          (noisy (clean_of sample_raw 1) sample_rng)
          (noisy (clean_of sample_test 10) (advance sample_rng 784)).

(** The sample corpus with a single test image. *)
Definition small_env : Env spec_float :=
  mk_env (Ok ((sample_raw, sample_labels 1), (sample_raw, sample_labels 1)))
         (fun W _ => (Ok tt, W)) (fun _ _ => Ok tt) (cast float32) (fun v => v).

(** A run whose training fails. *)
Definition failing_env : Env spec_float :=
  mk_env (Ok ((sample_raw, sample_labels 1), (sample_test, sample_labels 10)))
         (fun W _ => (Raise FrameworkError, W)) (fun _ _ => Ok tt)
         (cast float32) (fun v => v).

(** A run whose file cannot be written. *)
Definition unwritable_env : Env spec_float :=
  mk_env (Ok ((sample_raw, sample_labels 1), (sample_test, sample_labels 10)))
         (fun W _ => (Ok tt, W)) (fun _ _ => Raise OSError)
         (cast float32) (fun v => v).

(** A run that cannot fetch the corpus. *)
Definition offline_env : Env spec_float :=
  mk_env (Raise ResourceUnavailable) (fun W _ => (Ok tt, W)) (fun _ _ => Ok tt)
         (cast float32) (fun v => v).



(** The all-white image: every pixel is 1. *)
Definition white_image : image spec_float := repeat (repeat [fone float32] 28) 28.

(* ===================================================================== *)
(** * Facts about IEEE 754 arithmetic *)
(* ===================================================================== *)

Section NoNaN.
Variables p emx : Z.

Lemma shr_1_nonneg mrs : 0 <= shr_m mrs -> 0 <= shr_m (shr_1 mrs).
Proof.
  destruct mrs as [m r s]; simpl.
  destruct m as [|q|q]; simpl; try lia; destruct q; simpl; lia.
Qed.

Lemma iter_shr_1_nonneg n : forall mrs,
  0 <= shr_m mrs -> 0 <= shr_m (iter_pos shr_1 n mrs).
Proof.
  induction n as [n IH|n IH|]; intros mrs Hm; simpl.
  - apply IH, IH, shr_1_nonneg, Hm.
  - apply IH, IH, Hm.
  - apply shr_1_nonneg, Hm.
Qed.

Lemma shr_nonneg mrs e n : 0 <= shr_m mrs -> 0 <= shr_m (fst (shr mrs e n)).
Proof.
  intros Hm. destruct n; simpl; auto using iter_shr_1_nonneg.
Qed.

Lemma shr_fexp_nonneg m e l : 0 <= m -> 0 <= shr_m (fst (shr_fexp p emx m e l)).
Proof.
  intros Hm. unfold shr_fexp. apply shr_nonneg.
  destruct l as [|[ | | ]]; simpl; exact Hm.
Qed.

Lemma round_nearest_even_nonneg m l : 0 <= m -> 0 <= round_nearest_even m l.
Proof.
  intros Hm. destruct l as [|[ | | ]]; simpl; try lia.
  destruct (Z.even m); lia.
Qed.

(** Rounding a non-negative mantissa never yields NaN. *)
Lemma binary_round_aux_not_nan sx mx ex lx :
  0 <= mx -> is_nan (binary_round_aux p emx sx mx ex lx) = false.
Proof.
  intros Hm. unfold binary_round_aux.
  pose proof (shr_fexp_nonneg mx ex lx Hm) as H1.
  destruct (shr_fexp p emx mx ex lx) as [mrs' e']. simpl in H1.
  pose proof (round_nearest_even_nonneg (shr_m mrs') (loc_of_shr_record mrs') H1) as H2.
  pose proof (shr_fexp_nonneg (round_nearest_even (shr_m mrs') (loc_of_shr_record mrs'))
                              e' loc_Exact H2) as H3.
  destruct (shr_fexp p emx _ e' loc_Exact) as [mrs'' e'']. simpl in H3.
  destruct (shr_m mrs'') as [|q|q]; try reflexivity.
  - destruct (e'' <=? emx - p); reflexivity.
  - lia.
Qed.

Lemma binary_round_not_nan sx mx ex : is_nan (binary_round p emx sx mx ex) = false.
Proof.
  unfold binary_round.
  destruct (shl_align mx ex _) as [mz ez].
  apply binary_round_aux_not_nan. lia.
Qed.

Lemma binary_normalize_not_nan m e s : is_nan (binary_normalize p emx m e s) = false.
Proof.
  destruct m; simpl; auto using binary_round_not_nan.
Qed.

(** A finite factor times a number is a number. *)
Lemma SFmul_not_nan a b :
  is_finite a = true -> is_finite b = true -> is_nan (SFmul p emx a b) = false.
Proof.
  destruct a, b; simpl; intros; try discriminate; try reflexivity.
  apply binary_round_aux_not_nan. lia.
Qed.

Lemma SFmul_finite_not_nan s m e b :
  is_nan b = false -> is_nan (SFmul p emx (S754_finite s m e) b) = false.
Proof.
  destruct b; simpl; intros; try discriminate; try reflexivity.
  apply binary_round_aux_not_nan. lia.
Qed.

(** A finite term plus a number is a number. *)
Lemma SFadd_not_nan a b :
  is_finite a = true -> is_nan b = false -> is_nan (SFadd p emx a b) = false.
Proof.
  destruct a as [sa|sa| |sa ma ea], b as [sb|sb| |sb mb eb]; simpl; intros;
    try discriminate; try reflexivity.
  - destruct sa, sb; reflexivity.
  - apply binary_normalize_not_nan.
Qed.
End NoNaN.

(** Clipping a positive number from below by 0 does nothing. *)
Lemma npy_clip_positive m e hi :
  npy_clip (S754_finite false m e) fzero hi =
  if SFltb (S754_finite false m e) hi then S754_finite false m e else hi.
Proof. reflexivity. Qed.

(** [np.clip(., 0., 1.)] puts every number between 0 and 1. *)
Lemma npy_clip_in_unit s :
  is_nan s = false -> in_unit float64 (npy_clip s fzero (fone float64)) = true.
Proof.
  destruct s as [sg|sg| |sg m e]; intros Hn; try discriminate.
  - destruct sg; reflexivity.
  - destruct sg; reflexivity.
  - destruct sg; [reflexivity|].
    unfold npy_clip, npy_max. simpl is_nan. cbv iota.
    change (SFltb fzero (S754_finite false m e)) with true. cbv iota.
    unfold npy_min. simpl is_nan. cbv iota.
    destruct (SFltb (S754_finite false m e) (fone float64)) eqn:Hlt; [|reflexivity].
    unfold in_unit. change (SFleb fzero (S754_finite false m e)) with true.
    unfold SFltb in Hlt. unfold SFleb.
    destruct (SFcompare (S754_finite false m e) (fone float64)) as [[ | | ]|];
      try discriminate; reflexivity.
Qed.

(* ===================================================================== *)
(** * The Preprocessor *)
(* ===================================================================== *)

(** A property of all 256 [uint8] values is checked by running through
    them. *)
Lemma uint8_cases (P : Z -> bool) :
  forallb P (map Z.of_nat (seq 0 256)) = true ->
  forall v, is_uint8 v = true -> P v = true.
Proof.
  intros Hall v Hv. unfold is_uint8 in Hv.
  apply andb_true_iff in Hv as [H0 H1].
  apply Z.leb_le in H0. apply Z.leb_le in H1.
  rewrite forallb_forall in Hall. apply Hall.
  rewrite <- (Z2Nat.id v) by lia.
  apply in_map, in_seq. lia.
Qed.

Lemma scale_in_unit v : is_uint8 v = true -> in_unit float32 (scale v) = true.
Proof.
  revert v. apply (uint8_cases (fun v => in_unit float32 (scale v))).
  vm_compute. reflexivity.
Qed.

(** A normalised pixel is a finite [float64] once converted. *)
Lemma scale_double_finite v :
  is_uint8 v = true -> is_finite (convert float32 float64 (scale v)) = true.
Proof.
  revert v.
  apply (uint8_cases (fun v => is_finite (convert float32 float64 (scale v)))).
  vm_compute. reflexivity.
Qed.

Lemma forallb_map {A B} (f : A -> B) (P : B -> bool) (l : list A) :
  forallb P (map f l) = forallb (fun a => P (f a)) l.
Proof.
  induction l as [|a l IH]; simpl; [reflexivity|]. now rewrite IH.
Qed.

Lemma forallb_impl {A} (P Q : A -> bool) (l : list A) :
  (forall a, P a = true -> Q a = true) ->
  forallb P l = true -> forallb Q l = true.
Proof.
  intros HPQ. induction l as [|a l IH]; simpl; [reflexivity|].
  intros Hl. apply andb_true_iff in Hl as [Ha Hl].
  now rewrite (HPQ a Ha), (IH Hl).
Qed.

Lemma size_of_cons n s : size_of (n :: s) = (n * size_of s)%nat.
Proof. reflexivity. Qed.

(** What the Preprocessor computes on a batch of [N] samples of 784
    elements each. *)
Lemma preprocess_eq raw N rest :
  ushape raw = N :: rest -> size_of rest = 784%nat ->
  preprocess raw = Ok (mk_f float32 [N; 28; 28; 1]%nat (map scale (udata raw))).
Proof.
  intros Hs Hr. unfold preprocess, astype_float32, true_divide. simpl.
  rewrite Hs. simpl. unfold reshape. simpl dtype. simpl fshape. simpl fdata.
  rewrite map_map.
  replace (size_of [N; 28; 28; 1]%nat) with (N * 784)%nat by reflexivity.
  rewrite size_of_cons, Hr, Nat.eqb_refl. reflexivity.
Qed.

(** C1. For every raw batch of [N] images of 28 by 28 [uint8] pixels, the
    Preprocessor returns a batch of shape [(N, 28, 28, 1)] in which each
    element is the input pixel divided by 255 (in [float32]), and every
    element lies between 0 and 1. *)
Theorem preprocess_rescales (raw : u8array) (N : nat) :
  ushape raw = [N; 28; 28]%nat ->
  u8_valid raw = true ->
  exists y,
    preprocess raw = Ok y /\
    fshape y = [N; 28; 28; 1]%nat /\
    fdata y = map (fun v => fdiv float32 (of_Z float32 v) (of_Z float32 255)) (udata raw) /\
    forallb (in_unit float32) (fdata y) = true.
Proof.
  intros Hs Hv. eexists. split; [|split; [|split]].
  - apply (preprocess_eq raw N [28; 28]%nat Hs). reflexivity.
  - reflexivity.
  - reflexivity.
  - simpl. rewrite forallb_map.
    apply (forallb_impl is_uint8); [apply scale_in_unit | exact Hv].
Qed.

Lemma preprocess_rescales_witness :
  exists y,
    preprocess sample_raw = Ok y /\
    fshape y = [1; 28; 28; 1]%nat /\
    fdata y = map (fun v => fdiv float32 (of_Z float32 v) (of_Z float32 255)) (udata sample_raw) /\
    forallb (in_unit float32) (fdata y) = true.
Proof.
  apply (preprocess_rescales sample_raw 1); vm_compute; reflexivity.
Defined.

(* ===================================================================== *)
(** * The Noise Injector *)
(* ===================================================================== *)

Lemma draw_eq n : forall st,
  draw n st = (map (fun i => gauss st (pos st + i)%nat) (seq 0 n),
               mk_rng (gauss st) (pos st + n)).
Proof.
  induction n as [|n IH]; intros [g k]; simpl.
  - now rewrite Nat.add_0_r.
  - rewrite IH. simpl. rewrite Nat.add_0_r, <- seq_shift, map_map.
    f_equal; [f_equal|f_equal; lia].
    apply map_ext. intros i. f_equal. lia.
Qed.

Lemma shape_eqb_refl s : shape_eqb s s = true.
Proof.
  induction s as [|n s IH]; simpl; [reflexivity|].
  now rewrite Nat.eqb_refl, IH.
Qed.

Lemma zip_with_map_r {A B C D} (f : A -> B -> C) (g : D -> B) l1 l2 :
  zip_with f l1 (map g l2) = zip_with (fun a d => f a (g d)) l1 l2.
Proof.
  revert l2. induction l1 as [|a l1 IH]; intros [|d l2]; simpl; try reflexivity.
  now rewrite IH.
Qed.

Lemma map_zip_with {A B C D} (h : C -> D) (f : A -> B -> C) l1 l2 :
  map h (zip_with f l1 l2) = zip_with (fun a b => h (f a b)) l1 l2.
Proof.
  revert l2. induction l1 as [|a l1 IH]; intros [|b l2]; simpl; try reflexivity.
  now rewrite IH.
Qed.

Lemma zip_with_length {A B C} (f : A -> B -> C) l1 l2 :
  length l1 = length l2 -> length (zip_with f l1 l2) = length l1.
Proof.
  revert l2. induction l1 as [|a l1 IH]; intros [|b l2]; simpl; intros Hl;
    try discriminate; [reflexivity|].
  f_equal. apply IH. now injection Hl.
Qed.

Lemma zip_with_nth {A B C} (f : A -> B -> C) l1 l2 i da db dc :
  (i < length l1)%nat -> (i < length l2)%nat ->
  nth i (zip_with f l1 l2) dc = f (nth i l1 da) (nth i l2 db).
Proof.
  revert l2 i. induction l1 as [|a l1 IH]; intros [|b l2] [|i]; simpl; intros H1 H2;
    try lia; [reflexivity|].
  apply IH; lia.
Qed.

Lemma zip_with_Forall {A B C} (f : A -> B -> C) (P : A -> Prop) (Q : B -> Prop)
    (R : C -> Prop) l1 l2 :
  (forall a b, P a -> Q b -> R (f a b)) ->
  Forall P l1 -> Forall Q l2 -> Forall R (zip_with f l1 l2).
Proof.
  intros Hf H1. revert l2. induction H1 as [|a l1 Ha _ IH]; intros l2 H2.
  - constructor.
  - destruct H2 as [|b l2 Hb H2]; simpl; constructor; auto.
Qed.

Lemma random_normal_eq loc scl size st :
  random_normal loc scl size st =
  (mk_f float64 size
        (map (fun z => fadd float64 loc (fmul float64 scl z)) (deviates st (size_of size))),
   advance st (size_of size)).
Proof.
  unfold random_normal. now rewrite draw_eq.
Qed.

Lemma add_noise_eq nf x st :
  add_noise nf x st =
  (Ok (mk_f float64 (fshape x)
            (zip_with (noisy_sum (dtype x) nf) (fdata x)
                      (deviates st (size_of (fshape x))))),
   advance st (size_of (fshape x))).
Proof.
  unfold add_noise. rewrite random_normal_eq.
  unfold add, multiply. simpl fshape. simpl dtype. simpl fdata.
  rewrite shape_eqb_refl.
  replace (result_type (dtype x) float64) with float64 by (destruct (dtype x); reflexivity).
  rewrite map_map, zip_with_map_r. reflexivity.
Qed.

Lemma clip_noisy_sum nf t shape l1 l2 :
  clip (mk_f float64 shape (zip_with (noisy_sum t nf) l1 l2)) py_0 py_1 =
  mk_f float64 shape (zip_with (noisy_pixel t nf) l1 l2).
Proof.
  unfold clip. simpl. now rewrite map_zip_with.
Qed.

(** The Noise Injector in closed form: element [i] of the result comes
    from element [i] of the clean batch and deviate [i] of the draw. *)
Lemma inject_noise_eq nf x st :
  inject_noise nf x st =
  (Ok (mk_f float64 (fshape x)
            (zip_with (noisy_pixel (dtype x) nf) (fdata x)
                      (deviates st (size_of (fshape x))))),
   advance st (size_of (fshape x))).
Proof.
  unfold inject_noise. rewrite add_noise_eq. simpl rbind.
  now rewrite clip_noisy_sum.
Qed.

Lemma deviates_length st n : length (deviates st n) = n.
Proof. unfold deviates. now rewrite length_map, length_seq. Qed.

Lemma deviates_nth st n i d :
  (i < n)%nat -> nth i (deviates st n) d = gauss st (pos st + i).
Proof.
  intros Hi. unfold deviates.
  rewrite (nth_indep _ d (gauss st (pos st + 0))) by now rewrite length_map, length_seq.
  rewrite (map_nth (fun i => gauss st (pos st + i)%nat)), seq_nth by exact Hi.
  reflexivity.
Qed.

Lemma inject_noise_noisy x st :
  inject_noise noise_factor x st = (Ok (noisy x st), advance st (size_of (fshape x))).
Proof. apply inject_noise_eq. Qed.

(** C2. For every clean batch and every state of the generator, the Noise
    Injector returns a batch of the shape of its input in which element
    [i] is [clip(clean[i] + 0.5 * noise[i], 0, 1)], where [noise] is the
    array [np.random.normal] returns for that shape: one deviate of the
    generator per element, deviate [i] for element [i]. *)
Theorem noise_injector_elementwise (x : farray) (st : RandomState) :
  wf x ->
  exists y noise,
    fst (inject_noise noise_factor x st) = Ok y /\
    noise = fst (random_normal py_0 py_1 (fshape x) st) /\
    fshape y = fshape x /\
    fshape noise = fshape x /\
    length (fdata y) = length (fdata x) /\
    length (fdata noise) = length (fdata x) /\
    forall i, (i < length (fdata x))%nat ->
      nth i (fdata noise) fzero = noise_sample (gauss st (pos st + i)) /\
      nth i (fdata y) fzero =
        npy_clip (fadd float64 (convert (dtype x) float64 (nth i (fdata x) fzero))
                               (fmul float64 py_0_5 (nth i (fdata noise) fzero)))
                 fzero (fone float64).
Proof.
  intros Hwf. unfold wf in Hwf.
  exists (noisy x st), (fst (random_normal py_0 py_1 (fshape x) st)).
  rewrite inject_noise_noisy, random_normal_eq. simpl.
  assert (Hn : forall i, (i < length (fdata x))%nat ->
            nth i (map (fun z => fadd float64 py_0 (fmul float64 py_1 z))
                       (deviates st (size_of (fshape x)))) fzero
            = noise_sample (gauss st (pos st + i))).
  { intros i Hi.
    rewrite (nth_indep _ fzero (fadd float64 py_0 (fmul float64 py_1 fzero)))
      by (rewrite length_map, deviates_length; lia).
    rewrite (map_nth (fun z => fadd float64 py_0 (fmul float64 py_1 z))).
    rewrite deviates_nth by lia. reflexivity. }
  repeat split.
  - rewrite zip_with_length; [reflexivity|]. now rewrite deviates_length.
  - rewrite length_map, deviates_length. now symmetry.
  - now apply Hn.
  - rewrite Hn by assumption.
    rewrite (zip_with_nth _ _ _ i fzero fzero) by (rewrite ?deviates_length; lia).
    rewrite deviates_nth by lia. reflexivity.
Qed.

Lemma noise_injector_elementwise_witness :
  exists y noise,
    fst (inject_noise noise_factor sample_clean sample_rng) = Ok y /\
    noise = fst (random_normal py_0 py_1 (fshape sample_clean) sample_rng) /\
    fshape y = fshape sample_clean /\
    fshape noise = fshape sample_clean /\
    length (fdata y) = length (fdata sample_clean) /\
    length (fdata noise) = length (fdata sample_clean) /\
    forall i, (i < length (fdata sample_clean))%nat ->
      nth i (fdata noise) fzero = noise_sample (gauss sample_rng (pos sample_rng + i)) /\
      nth i (fdata y) fzero =
        npy_clip (fadd float64 (convert (dtype sample_clean) float64
                                        (nth i (fdata sample_clean) fzero))
                               (fmul float64 py_0_5 (nth i (fdata noise) fzero)))
                 fzero (fone float64).
Proof.
  apply (noise_injector_elementwise sample_clean sample_rng). reflexivity.
Defined.

Lemma noise_sample_not_nan z : is_finite z = true -> is_nan (noise_sample z) = false.
Proof.
  intros Hz. unfold noise_sample, fadd, fmul.
  apply SFadd_not_nan; [reflexivity|].
  apply SFmul_not_nan; [reflexivity|exact Hz].
Qed.

(** A finite clean element and a finite deviate give a noisy element
    between 0 and 1. *)
Lemma noisy_pixel_in_unit t x z :
  is_finite (convert t float64 x) = true -> is_finite z = true ->
  in_unit float64 (noisy_pixel t noise_factor x z) = true.
Proof.
  intros Hx Hz. unfold noisy_pixel, noisy_sum.
  change (cast float64 py_0) with fzero.
  change (cast float64 py_1) with (fone float64).
  apply npy_clip_in_unit. unfold fadd, fmul.
  apply SFadd_not_nan; [exact Hx|].
  change (cast float64 noise_factor) with (S754_finite false 4503599627370496 (-53)).
  apply SFmul_finite_not_nan, noise_sample_not_nan, Hz.
Qed.

Lemma Forall_forallb {A} (P : A -> bool) (l : list A) :
  Forall (fun a => P a = true) l <-> forallb P l = true.
Proof.
  rewrite forallb_forall, Forall_forall. reflexivity.
Qed.

Lemma deviates_finite st n :
  (forall k, is_finite (gauss st k) = true) ->
  Forall (fun z => is_finite z = true) (deviates st n).
Proof.
  intros Hf. unfold deviates. apply Forall_forall. intros z Hz.
  apply in_map_iff in Hz as (i & <- & _). apply Hf.
Qed.

(** The noisy version of a normalised batch lies between 0 and 1. *)
Lemma noisy_in_unit raw shape st :
  u8_valid raw = true ->
  (forall k, is_finite (gauss st k) = true) ->
  forallb (in_unit float64)
          (fdata (noisy (mk_f float32 shape (map scale (udata raw))) st)) = true.
Proof.
  intros Hv Hf. apply Forall_forallb. simpl.
  apply (zip_with_Forall _ (fun a => is_finite (convert float32 float64 a) = true)
                           (fun z => is_finite z = true)).
  - intros a z. apply noisy_pixel_in_unit.
  - apply Forall_forall. intros a Ha. apply in_map_iff in Ha as (v & <- & Hv').
    apply scale_double_finite.
    unfold u8_valid in Hv. rewrite forallb_forall in Hv. now apply Hv.
  - now apply deviates_finite.
Qed.

(* ===================================================================== *)
(** * The first cell, from the corpus to the four arrays *)
(* ===================================================================== *)

Section FirstCell.
Context {T : Type} (env : Env T).

Lemma load_eq w :
  load env w =
  (rbind (mnist_load_data env) (fun l => Ok (fst (fst l), fst (snd l))), w).
Proof.
  unfold load, bind, lift, ret.
  destruct (mnist_load_data env) as [[[a b] [c d]]|e]; reflexivity.
Qed.

(** The Preprocessor cell is the function [preprocess] on each split;
    it does not touch the world. *)
Lemma normalise_eq tr te (w : World T) :
  normalise tr te w =
  (rbind (preprocess tr) (fun a => rbind (preprocess te) (fun b => Ok (a, b))), w).
Proof.
  unfold normalise, preprocess, bind, lift, ret.
  generalize (true_divide (astype_float32 tr) py_255) as a0.
  generalize (true_divide (astype_float32 te) py_255) as b0.
  intros b0 a0.
  destruct (len (fshape a0)) as [n|e]; [|reflexivity]. simpl rbind.
  destruct (reshape a0 [n; 28; 28; 1]%nat) as [a|e]; [|reflexivity].
  destruct (len (fshape b0)) as [n'|e]; [|reflexivity]. simpl rbind.
  destruct (reshape b0 [n'; 28; 28; 1]%nat) as [b|e]; reflexivity.
Qed.

(** The Noise Injector cell: both splits, the test split from where the
    training split left the generator. *)
Lemma corrupt_eq a b (w : World T) :
  corrupt a b w =
  (Ok (noisy a (rng w), noisy b (advance (rng w) (size_of (fshape a)))),
   set_rng w (advance (advance (rng w) (size_of (fshape a))) (size_of (fshape b)))).
Proof.
  unfold corrupt, bind, with_rng, ret.
  rewrite add_noise_eq. simpl rng. rewrite add_noise_eq.
  now rewrite !clip_noisy_sum.
Qed.

Lemma load_and_corrupt_eq tr ltr te lte Ntr Nte (w : World T) :
  mnist_load_data env = Ok ((tr, ltr), (te, lte)) ->
  ushape tr = [Ntr; 28; 28]%nat ->
  ushape te = [Nte; 28; 28]%nat ->
  load_and_corrupt env w =
  (Ok (mk_data (clean_of tr Ntr) (clean_of te Nte)
               (noisy (clean_of tr Ntr) (rng w))
               (noisy (clean_of te Nte) (advance (rng w) (Ntr * 784)))),
   set_rng w (advance (advance (rng w) (Ntr * 784)) (Nte * 784))).
Proof.
  intros Hl Htr Hte. unfold load_and_corrupt, bind.
  rewrite load_eq, Hl. simpl rbind. cbv iota. simpl fst. simpl snd.
  rewrite normalise_eq.
  rewrite (preprocess_eq tr Ntr [28; 28]%nat Htr eq_refl).
  rewrite (preprocess_eq te Nte [28; 28]%nat Hte eq_refl).
  simpl rbind. cbv iota. simpl fst. simpl snd.
  rewrite corrupt_eq. reflexivity.
Qed.
End FirstCell.

(** C3. Whatever the corpus of 28 by 28 [uint8] images and whatever finite
    deviates the generator hands out, the first cell ends with every
    element of the noisy training tensor and of the noisy test tensor
    between 0 and 1. *)
Theorem noisy_tensors_in_unit {T : Type} (env : Env T) (w : World T)
    (tr ltr te lte : u8array) (Ntr Nte : nat) :
  mnist_load_data env = Ok ((tr, ltr), (te, lte)) ->
  ushape tr = [Ntr; 28; 28]%nat ->
  ushape te = [Nte; 28; 28]%nat ->
  u8_valid tr = true ->
  u8_valid te = true ->
  (forall k, is_finite (gauss (rng w) k) = true) ->
  exists d w',
    load_and_corrupt env w = (Ok d, w') /\
    forallb (in_unit float64) (fdata (x_train_noisy d)) = true /\
    forallb (in_unit float64) (fdata (x_test_noisy d)) = true.
Proof.
  intros Hl Htr Hte Hvtr Hvte Hf. do 2 eexists. split.
  - apply (load_and_corrupt_eq env tr ltr te lte Ntr Nte w Hl Htr Hte).
  - simpl x_train_noisy. simpl x_test_noisy. unfold clean_of. split.
    + now apply noisy_in_unit.
    + apply noisy_in_unit; [exact Hvte|]. intros k. apply Hf.
Qed.

Lemma sample_rng_finite k : is_finite (gauss (rng sample_world) k) = true.
Proof. simpl. destruct (Nat.even k); reflexivity. Qed.

Lemma noisy_tensors_in_unit_witness :
  exists d w',
    load_and_corrupt sample_env sample_world = (Ok d, w') /\
    forallb (in_unit float64) (fdata (x_train_noisy d)) = true /\
    forallb (in_unit float64) (fdata (x_test_noisy d)) = true.
Proof.
  apply (noisy_tensors_in_unit sample_env sample_world
           sample_raw (sample_labels 1) sample_test (sample_labels 10) 1 10).
  - reflexivity.
  - reflexivity.
  - reflexivity.
  - vm_compute. reflexivity.
  - vm_compute. reflexivity.
  - exact sample_rng_finite.
Defined.

(** C10. The clean tensors of the first cell are [float32] and the noisy
    ones [float64]: the array [np.random.normal] returns is [float64], and
    adding it to a [float32] array promotes the sum. *)
Theorem noise_promotes_dtype {T : Type} (env : Env T) (w : World T)
    (tr ltr te lte : u8array) (Ntr Nte : nat) :
  mnist_load_data env = Ok ((tr, ltr), (te, lte)) ->
  ushape tr = [Ntr; 28; 28]%nat ->
  ushape te = [Nte; 28; 28]%nat ->
  exists d w',
    load_and_corrupt env w = (Ok d, w') /\
    dtype (x_train d) = float32 /\ dtype (x_test d) = float32 /\
    dtype (x_train_noisy d) = float64 /\ dtype (x_test_noisy d) = float64 /\
    (forall size st, dtype (fst (random_normal py_0 py_1 size st)) = float64) /\
    result_type float32 float64 = float64.
Proof.
  intros Hl Htr Hte. do 2 eexists. split.
  - apply (load_and_corrupt_eq env tr ltr te lte Ntr Nte w Hl Htr Hte).
  - repeat split. intros size st. now rewrite random_normal_eq.
Qed.

Lemma noise_promotes_dtype_witness :
  exists d w',
    load_and_corrupt sample_env sample_world = (Ok d, w') /\
    dtype (x_train d) = float32 /\ dtype (x_test d) = float32 /\
    dtype (x_train_noisy d) = float64 /\ dtype (x_test_noisy d) = float64 /\
    (forall size st, dtype (fst (random_normal py_0 py_1 size st)) = float64) /\
    result_type float32 float64 = float64.
Proof.
  apply (noise_promotes_dtype sample_env sample_world
           sample_raw (sample_labels 1) sample_test (sample_labels 10) 1 10);
    reflexivity.
Defined.

(** C8. The Preprocessor cell is a function of the raw batches alone: run
    in any two worlds on the same batches it gives the same result, and it
    leaves the world (generator, model parameters, calls made) as it
    found it. *)
Theorem preprocessor_pure {T : Type} (tr te : u8array) (w1 w2 : World T) :
  fst (normalise tr te w1) = fst (normalise tr te w2) /\
  snd (normalise tr te w1) = w1 /\
  snd (normalise tr te w2) = w2.
Proof.
  rewrite !normalise_eq. repeat split.
Qed.

(* ===================================================================== *)
(** * The autoencoder *)
(* ===================================================================== *)

(** C4. The model the second cell builds is the stack Conv(32, 3x3, ReLU,
    same), MaxPool(2x2), Conv(16, 3x3, ReLU, same), MaxPool(2x2),
    Conv(16, 3x3, ReLU, same), Upsample(2x2), Conv(32, 3x3, ReLU, same),
    Upsample(2x2), Conv(1, 3x3, sigmoid, same) on samples of shape
    (28, 28, 1), and nothing else; building it takes no argument. *)
Theorem autoencoder_topology :
  exists m,
    build_autoencoder = Ok m /\
    input_shape m = [28; 28; 1]%nat /\
    layers m =
      [ Conv2D 32 (3, 3)%nat relu same;
        MaxPooling2D (2, 2)%nat same;
        Conv2D 16 (3, 3)%nat relu same;
        MaxPooling2D (2, 2)%nat same ]
      ++
      [ Conv2D 16 (3, 3)%nat relu same;
        UpSampling2D (2, 2)%nat;
        Conv2D 32 (3, 3)%nat relu same;
        UpSampling2D (2, 2)%nat;
        Conv2D 1 (3, 3)%nat sigmoid same ].
Proof.
  eexists. repeat split.
Qed.

Section Shapes.
Context {T : Type} `{Numeric T}.

Lemma has_shape_shaped h w c (x : image T) :
  has_shape h w c x = true <-> shaped h w c x.
Proof.
  unfold has_shape, shaped.
  rewrite andb_true_iff, Nat.eqb_eq, <- Forall_forallb.
  apply and_iff_compat_l. split; apply Forall_impl; intros row.
  - rewrite andb_true_iff, Nat.eqb_eq, <- Forall_forallb.
    intros [Hw Hc]. split; [exact Hw|].
    revert Hc. apply Forall_impl. intros px. apply Nat.eqb_eq.
  - intros [Hw Hc]. rewrite andb_true_iff, Nat.eqb_eq, <- Forall_forallb.
    split; [exact Hw|].
    revert Hc. apply Forall_impl. intros px. apply Nat.eqb_eq.
Qed.

(** An array built by three nested maps over index ranges has the shape
    of the ranges. *)
Lemma shaped_tabulate (f : nat -> nat -> nat -> T) h w c :
  shaped h w c
    (map (fun i => map (fun j => map (fun k => f i j k) (seq 0 c)) (seq 0 w)) (seq 0 h)).
Proof.
  split; [now rewrite length_map, length_seq|].
  apply Forall_forall. intros row Hrow.
  apply in_map_iff in Hrow as (i & <- & _).
  split; [now rewrite length_map, length_seq|].
  apply Forall_forall. intros px Hpx.
  apply in_map_iff in Hpx as (j & <- & _).
  now rewrite length_map, length_seq.
Qed.

Lemma out_len_same_0 k s : out_len same 0 k s = 0%nat.
Proof.
  unfold out_len. destruct s as [|s]; [reflexivity|].
  apply Nat.div_small. lia.
Qed.

Lemma shaped_width h w c (x : image T) :
  shaped h w c x -> (0 < h)%nat -> width x = w.
Proof.
  intros [Hh Hrows] Hpos. destruct x as [|row x]; simpl in *; [lia|].
  unfold width. simpl. now inversion Hrows as [|? ? [Hw _] _].
Qed.

Lemma shaped_channels h w c (x : image T) :
  shaped h w c x -> (0 < h)%nat -> (0 < w)%nat -> channels x = c.
Proof.
  intros [Hh Hrows] Hh0 Hw0. destruct x as [|row x]; simpl in *; [lia|].
  inversion Hrows as [|? ? [Hw Hc] _]. subst.
  destruct row as [|px row]; simpl in *; [lia|].
  unfold channels. simpl. now inversion Hc.
Qed.

Lemma conv2d_shaped f kh kw a p h w c (x : image T) :
  shaped h w c x ->
  shaped (out_len same h kh 1) (out_len same w kw 1) f (conv2d f kh kw a same p x).
Proof.
  intros Hx. unfold conv2d.
  replace (height x) with h by (symmetry; apply Hx).
  destruct h as [|h].
  - rewrite out_len_same_0. simpl. split; [reflexivity|constructor].
  - rewrite (shaped_width _ _ _ _ Hx) by lia.
    apply (shaped_tabulate
             (fun i j f0 =>
                activate a (nadd (nsum (conv_terms p x kh kw
                              (pad_before same (S h) kh 1) (pad_before same w kw 1) i j f0))
                                 (bias p f0)))).
Qed.

Lemma max_pooling2d_shaped ph pw h w c (x : image T) :
  shaped h w c x ->
  shaped (out_len same h ph ph) (out_len same w pw pw) c (max_pooling2d ph pw same x).
Proof.
  intros Hx. unfold max_pooling2d.
  replace (height x) with h by (symmetry; apply Hx).
  destruct h as [|h].
  - rewrite out_len_same_0. simpl. split; [reflexivity|constructor].
  - rewrite (shaped_width _ _ _ _ Hx) by lia.
    destruct w as [|w].
    + rewrite out_len_same_0. simpl.
      split; [now rewrite length_map, length_seq|].
      apply Forall_forall. intros row Hrow.
      apply in_map_iff in Hrow as (i & <- & _). split; [reflexivity|constructor].
    + rewrite (shaped_channels _ _ _ _ Hx) by lia.
      apply (shaped_tabulate
               (fun i j c0 =>
                  nmaximum (window x ph pw (pad_before same (S h) ph ph)
                                   (pad_before same (S w) pw pw) i j c0))).
Qed.

Lemma length_flat_map_const {A B} (g : A -> list B) n (l : list A) :
  (forall a, In a l -> length (g a) = n) ->
  length (flat_map g l) = (length l * n)%nat.
Proof.
  induction l as [|a l IH]; intros Hg; simpl; [reflexivity|].
  rewrite length_app, (Hg a (or_introl eq_refl)), IH; [lia|].
  intros b Hb. apply Hg. now right.
Qed.

Lemma up_sampling2d_shaped sh sw h w c (x : image T) :
  shaped h w c x -> shaped (h * sh) (w * sw) c (up_sampling2d sh sw x).
Proof.
  intros [Hh Hrows]. rewrite Forall_forall in Hrows. unfold up_sampling2d. split.
  - rewrite (length_flat_map_const _ sh); [now rewrite Hh|].
    intros. apply repeat_length.
  - apply Forall_forall. intros r Hr.
    apply in_flat_map in Hr as (row & Hrow & Hr).
    apply repeat_spec in Hr. subst r.
    destruct (Hrows row Hrow) as [Hw Hc]. rewrite Forall_forall in Hc. split.
    + rewrite (length_flat_map_const _ sw); [now rewrite Hw|].
      intros. apply repeat_length.
    + apply Forall_forall. intros q Hq.
      apply in_flat_map in Hq as (px & Hpx & Hq).
      apply repeat_spec in Hq. subst q. now apply Hc.
Qed.

(** A same-padded layer gives a sample the shape Keras infers for it. *)
Lemma apply_layer_shaped l p h w c s' (x : image T) :
  same_padded l = true ->
  compute_output_shape l [h; w; c]%nat = Ok s' ->
  shaped h w c x ->
  exists h' w' c', s' = [h'; w'; c']%nat /\ shaped h' w' c' (apply_layer l p x).
Proof.
  intros Hpad Hs Hx.
  destruct l as [f [kh kw] a pad|[ph pw] pad|[sh sw]]; simpl in *.
  - destruct pad; [|discriminate]. simpl in Hs. injection Hs as <-.
    do 3 eexists. split; [reflexivity|]. eapply conv2d_shaped; eassumption.
  - destruct pad; [|discriminate]. simpl in Hs. injection Hs as <-.
    do 3 eexists. split; [reflexivity|]. eapply max_pooling2d_shaped; eassumption.
  - injection Hs as <-.
    do 3 eexists. split; [reflexivity|]. now apply up_sampling2d_shaped.
Qed.

Lemma run_layers_shaped ls : forall k W h w c s' (x : image T),
  forallb same_padded ls = true ->
  infer_shape ls [h; w; c]%nat = Ok s' ->
  shaped h w c x ->
  exists h' w' c', s' = [h'; w'; c']%nat /\ shaped h' w' c' (run_layers ls k W x).
Proof.
  induction ls as [|l ls IH]; intros k W h w c s' x Hpad Hs Hx;
    cbn [infer_shape run_layers forallb] in *.
  - injection Hs as <-. now exists h, w, c.
  - apply andb_true_iff in Hpad as [Hl Hpad].
    destruct (compute_output_shape l [h; w; c]%nat) as [s1|e] eqn:Hs1;
      cbn [rbind] in Hs; [|discriminate].
    destruct (apply_layer_shaped l (W k) h w c s1 x Hl Hs1 Hx) as (h1 & w1 & c1 & -> & Hx1).
    exact (IH (S k) W h1 w1 c1 s' _ Hpad Hs Hx1).
Qed.

Lemma run_layers_app ls1 : forall ls2 k W x,
  run_layers (ls1 ++ ls2) k W x =
  run_layers ls2 (k + length ls1) W (run_layers ls1 k W x).
Proof.
  induction ls1 as [|l ls1 IH]; intros ls2 k W x; simpl.
  - now rewrite Nat.add_0_r.
  - rewrite IH. f_equal. lia.
Qed.

(** Every element a sigmoid convolution puts out is a value of the
    sigmoid. *)
Lemma conv2d_sigmoid_values (P : T -> Prop) f kh kw pad p x :
  (forall v, P (nsigmoid v)) ->
  all_pixels P (conv2d f kh kw sigmoid pad p x).
Proof.
  intros HP. unfold all_pixels, conv2d.
  apply Forall_forall. intros row Hrow. apply in_map_iff in Hrow as (i & <- & _).
  apply Forall_forall. intros px Hpx. apply in_map_iff in Hpx as (j & <- & _).
  apply Forall_forall. intros v Hv. apply in_map_iff in Hv as (k & <- & _).
  apply HP.
Qed.
End Shapes.

Lemma build_autoencoder_ok : build_autoencoder = Ok autoencoder.
Proof. reflexivity. Qed.

(** ** The sigmoid kernel of the examples *)

Lemma SFadd_number_finite p emx a b :
  is_nan a = false -> is_finite b = true -> is_nan (SFadd p emx a b) = false.
Proof.
  destruct a as [sa|sa| |sa ma ea], b as [sb|sb| |sb mb eb]; simpl; intros;
    try discriminate; try reflexivity.
  - destruct sa, sb; reflexivity.
  - apply binary_normalize_not_nan.
Qed.

(** Clipping to [0, 1] in [float32] puts every number between 0 and 1. *)
Lemma npy_clip_in_unit32 s :
  is_nan s = false -> in_unit float32 (npy_clip s fzero (fone float32)) = true.
Proof.
  destruct s as [sg|sg| |sg m e]; intros Hn; try discriminate.
  - destruct sg; reflexivity.
  - destruct sg; reflexivity.
  - destruct sg; [reflexivity|].
    rewrite npy_clip_positive.
    destruct (SFltb (S754_finite false m e) (fone float32)) eqn:Hlt; [|reflexivity].
    unfold in_unit. change (SFleb fzero (S754_finite false m e)) with true.
    unfold SFltb in Hlt. unfold SFleb.
    destruct (SFcompare (S754_finite false m e) (fone float32)) as [[ | | ]|];
      try discriminate; reflexivity.
Qed.

(** [hard_sigmoid] does what a sigmoid kernel does. *)
Lemma hard_sigmoid_laws : SigmoidLaws hard_sigmoid_kernel.
Proof.
  split; intros x Hx; unfold sigmoid32, hard_sigmoid_kernel, hard_sigmoid.
  - destruct x; try discriminate. reflexivity.
  - apply npy_clip_in_unit32. unfold fadd, fmul.
    apply SFadd_number_finite; [|reflexivity].
    change (cast float32 (pyfloat 3602879701896397 (-54)))
      with (S754_finite false 13421773 (-26)).
    now apply SFmul_finite_not_nan.
Qed.

(** Every element the model puts out is a value of the sigmoid kernel:
    NaN, or a number between 0 and 1. *)
Lemma sigmoid_layer_values {K : SigmoidKernel} (L : SigmoidLaws K)
    (W : weights spec_float) (x : image spec_float) :
  all_pixels (fun v => is_nan v = true \/ in_unit float32 v = true)
             (run_layers (layers autoencoder) 0 W x).
Proof.
  change (layers autoencoder)
    with (firstn 8 (layers autoencoder) ++ [Conv2D 1 (3, 3)%nat sigmoid same]).
  rewrite run_layers_app. cbn [run_layers apply_layer].
  apply conv2d_sigmoid_values. intros v. cbn [nsigmoid float32_kernels].
  destruct (is_nan v) eqn:Hv.
  - left. now apply sigmoid32_nan.
  - right. now apply sigmoid32_unit.
Qed.





(* ===================================================================== *)
(** * The log of a run *)
(* ===================================================================== *)

Section Log.
Context {T : Type}.
Local Open Scope string_scope.
Local Open Scope nat_scope.

Lemma add_log_nil (w : World T) : add_log w [] = w.
Proof. destruct w. unfold add_log. simpl. now rewrite app_nil_r. Qed.

Lemma add_log_app (w : World T) evs1 evs2 :
  add_log (add_log w evs1) evs2 = add_log w (evs1 ++ evs2).
Proof. unfold add_log. simpl. now rewrite app_assoc. Qed.

(** A loop whose body always succeeds and appends [ev j] at step [j]. *)
Lemma for_range_ok (body : nat -> M T unit) (ev : nat -> list (event T)) n :
  forall i w,
    (forall j w', i <= j < i + n -> body j w' = (Ok tt, add_log w' (ev j))) ->
    for_range i n body w = (Ok tt, add_log w (concat (map ev (seq i n)))).
Proof.
  induction n as [|n IH]; intros i w Hbody; simpl.
  - unfold ret. now rewrite add_log_nil.
  - unfold bind. rewrite Hbody by lia. rewrite IH.
    + now rewrite add_log_app.
    + intros j w' Hj. apply Hbody. lia.
Qed.

(** Sample [i] of a batch of [N] images exists when [i < N]. *)
Lemma sample_image_ok a N i :
  fshape a = [N; 28; 28; 1] -> i < N -> sample_image a i = Ok (picture a i).
Proof.
  intros Hs Hi. unfold sample_image, getitem. rewrite Hs.
  apply Nat.ltb_lt in Hi. rewrite Hi. reflexivity.
Qed.

(** Past the end of the batch, indexing raises [IndexError]. *)
Lemma sample_image_out_of_range a N rest i :
  fshape a = N :: rest -> N <= i -> sample_image a i = Raise IndexError.
Proof.
  intros Hs Hi. unfold sample_image, getitem. rewrite Hs.
  apply Nat.ltb_ge in Hi. now rewrite Hi.
Qed.

Lemma plt_subplot_ok rows n index (w : World T) :
  1 <= index <= rows * n ->
  plt_subplot rows n index w = (Ok tt, add_log w [Subplot rows n index]).
Proof.
  intros [H1 H2]. unfold plt_subplot.
  apply Nat.leb_le in H1. apply Nat.leb_le in H2. now rewrite H1, H2.
Qed.

(** One step of a plotting loop: pair [i] of two batches of [N] images
    into a grid of at least two rows. *)
Lemma draw_pair_ok rows n top ttop bottom tbottom N i (w : World T) :
  fshape top = [N; 28; 28; 1] -> fshape bottom = [N; 28; 28; 1] ->
  i < N -> i < n -> 2 <= rows ->
  bind (plt_subplot rows n (i + 1)) (fun _ =>
  bind (lift (sample_image top i)) (fun img =>
  bind (plt_imshow img "gray") (fun _ =>
  bind (plt_title ttop) (fun _ =>
  bind (plt_axis "off") (fun _ =>
  bind (plt_subplot rows n (i + 1 + n)) (fun _ =>
  bind (lift (sample_image bottom i)) (fun img =>
  bind (plt_imshow img "gray") (fun _ =>
  bind (plt_title tbottom) (fun _ =>
  plt_axis "off"))))))))) w
  = (Ok tt, add_log w (pair_events rows n top ttop bottom tbottom i)).
Proof.
  intros Ht Hb Hi Hn Hrows. unfold bind at 1.
  rewrite plt_subplot_ok by nia.
  unfold bind at 1, lift at 1. rewrite (sample_image_ok top N i Ht Hi).
  unfold bind at 1, plt_imshow at 1, emit at 1.
  unfold bind at 1, plt_title at 1, emit at 1.
  unfold bind at 1, plt_axis at 1, emit at 1.
  unfold bind at 1. rewrite plt_subplot_ok by nia.
  unfold bind at 1, lift at 1. rewrite (sample_image_ok bottom N i Hb Hi).
  unfold bind, plt_imshow, plt_title, plt_axis, emit, add_log, pair_events. simpl.
  repeat rewrite <- app_assoc. reflexivity.
Qed.

(** The first figure: ten originals above their noisy versions, in a
    grid of two rows. *)
Lemma show_noisy_ok (d : dataset) N (w : World T) :
  fshape (x_test d) = [N; 28; 28; 1] ->
  fshape (x_test_noisy d) = [N; 28; 28; 1] ->
  10 <= N ->
  show_noisy d w =
  (Ok tt, add_log w (grid_events (20, 4) 2 10 (x_test d) "Original"
                                 (x_test_noisy d) "Noisy")).
Proof.
  intros Hc Hn HN. unfold show_noisy, grid_events.
  unfold bind at 1, plt_figure, emit. cbv beta iota. unfold bind at 1.
  rewrite (for_range_ok _ (pair_events 2 10 (x_test d) "Original"
                                       (x_test_noisy d) "Noisy")).
  - unfold plt_show, emit, add_log. simpl rng. simpl model_weights. simpl log.
    repeat rewrite <- app_assoc. reflexivity.
  - intros j w' Hj. apply (draw_pair_ok 2 10 _ _ _ _ N); try assumption; lia.
Qed.
End Log.

(* ===================================================================== *)
(** * [predict] and the last figure *)
(* ===================================================================== *)

Section Predict.
Context {T : Type} {N : Numeric T} (env : Env T).
Local Open Scope string_scope.
Local Open Scope nat_scope.

Lemma chunks_length {A} k n : forall l : list A, length (chunks k n l) = n.
Proof.
  induction n as [|n IH]; intros l; simpl; [reflexivity|]. now rewrite IH.
Qed.

Lemma chunks_Forall {A} k n : forall l : list A,
  n * k <= length l -> Forall (fun c => length c = k) (chunks k n l).
Proof.
  induction n as [|n IH]; intros l Hl; simpl; constructor.
  - rewrite length_firstn. simpl in Hl. lia.
  - apply IH. rewrite length_skipn. simpl in Hl. lia.
Qed.

(** A well-formed array of shape [(n, h, w, c)] splits into [n] samples of
    shape [(h, w, c)]. *)
Lemma to_batch_shaped x n h w c :
  fshape x = [n; h; w; c] -> wf x ->
  exists xs, to_batch env x = Ok xs /\ length xs = n /\ Forall (shaped h w c) xs.
Proof.
  intros Hs Hwf. unfold wf in Hwf. rewrite Hs in Hwf. simpl in Hwf.
  unfold to_batch. rewrite Hs. eexists. split; [reflexivity|]. split.
  - now rewrite length_map, chunks_length.
  - apply Forall_forall. intros img Himg.
    apply in_map_iff in Himg as (s & <- & Hs').
    assert (Hlen : length s = h * w * c).
    { pose proof (chunks_Forall (h * w * c) n (map (of_float env) (fdata x))) as Hc.
      rewrite Forall_forall in Hc. apply Hc; [|exact Hs'].
      rewrite length_map, Hwf. nia. }
    split; [now rewrite length_map, chunks_length|].
    apply Forall_forall. intros row Hrow.
    apply in_map_iff in Hrow as (r & <- & Hr).
    assert (Hr' : length r = w * c).
    { pose proof (chunks_Forall (w * c) h s) as Hc.
      rewrite Forall_forall in Hc. apply Hc; [|exact Hr]. rewrite Hlen. nia. }
    split; [apply chunks_length|].
    apply chunks_Forall. rewrite Hr'. lia.
Qed.

Lemma forward_autoencoder_eq (W : weights T) xs :
  forallb (has_shape 28 28 1) xs = true ->
  forward autoencoder W xs = Ok (map (run_layers (layers autoencoder) 0 W) xs).
Proof.
  intros Hxs. unfold forward.
  change (check_input autoencoder) with (has_shape (T:=T) 28 28 1).
  now rewrite Hxs.
Qed.

(** What [predict] returns for a batch that has samples. *)
Lemma predict_result (W : weights T) (xs : list (image T)) :
  xs <> [] ->
  forallb (has_shape 28 28 1) xs = true ->
  rbind (forward autoencoder W xs) (fun ys =>
    match ys with
    | [] => Raise ValueError
    | _ :: _ => Ok (of_batch env (output_shape autoencoder) ys)
    end) =
  Ok (of_batch env [28; 28; 1] (map (run_layers (layers autoencoder) 0 W) xs)).
Proof.
  intros Hne Hxs. rewrite (forward_autoencoder_eq W xs Hxs). cbn [rbind].
  destruct xs as [|x0 xs]; [contradiction|reflexivity].
Qed.

(** [predict] on a well-formed array of [n] samples of 28 by 28 by 1,
    [n] not 0, succeeds and returns a [float32] array of [n] samples of
    the same shape; it leaves the parameters and the generator alone. *)
Lemma model_predict_ok x n (w : World T) :
  fshape x = [n; 28; 28; 1] -> wf x -> 0 < n ->
  exists decoded,
    model_predict env autoencoder x w = (Ok decoded, add_log w [Predicted x]) /\
    fshape decoded = [n; 28; 28; 1] /\ dtype decoded = float32.
Proof.
  intros Hs Hwf Hn.
  destruct (to_batch_shaped x n 28 28 1 Hs Hwf) as (xs & Hxs & Hlen & Hsh).
  unfold model_predict, bind, emit. cbn [model_weights].
  rewrite Hxs. cbn [rbind]. rewrite predict_result.
  - eexists. split; [reflexivity|]. split; [|reflexivity].
    unfold of_batch. cbn [fshape]. now rewrite length_map, Hlen.
  - intros ->. simpl in Hlen. lia.
  - apply Forall_forallb. revert Hsh. apply Forall_impl.
    intros img. apply has_shape_shaped.
Qed.

(** The last figure: ten noisy test images above what the model makes of
    them, laid out in a grid of three rows. *)
Lemma show_denoised_ok (d : dataset) n (w : World T) :
  fshape (x_test_noisy d) = [n; 28; 28; 1] ->
  wf (x_test_noisy d) ->
  10 <= n ->
  exists decoded,
    fst (model_predict env autoencoder (x_test_noisy d) w) = Ok decoded /\
    fshape decoded = [n; 28; 28; 1] /\
    show_denoised env autoencoder d w =
    (Ok tt, add_log w (Predicted (x_test_noisy d)
                       :: grid_events (20, 6) 3 10 (x_test_noisy d) "Noisy"
                                      decoded "Denoised")).
Proof.
  intros Hs Hwf Hn.
  destruct (model_predict_ok (x_test_noisy d) n w Hs Hwf ltac:(lia))
    as (decoded & Hp & Hd & _).
  exists decoded. rewrite Hp. split; [reflexivity|]. split; [exact Hd|].
  unfold show_denoised. unfold bind at 1. rewrite Hp.
  unfold bind at 1, plt_figure, emit. cbv beta iota. unfold bind at 1.
  rewrite (for_range_ok _ (pair_events 3 10 (x_test_noisy d) "Noisy"
                                       decoded "Denoised")).
  - unfold plt_show, emit, add_log, grid_events.
    simpl rng. simpl model_weights. simpl log.
    repeat rewrite <- app_assoc. reflexivity.
  - intros j w' Hj. apply (draw_pair_ok 3 10 _ _ _ _ n); try assumption; lia.
Qed.
End Predict.

(** C9. Given a clean and a noisy test batch of the same number (at least
    ten) of 28 by 28 images, the first figure draws the first ten pairs,
    original above noisy, into a grid of two rows and ten columns, and the
    last figure draws the first ten pairs, noisy above denoised, into a
    grid of three rows and ten columns, the denoised batch having as many
    samples as the noisy one. *)
Theorem visualizations_render_pairs {T : Type} {N : Numeric T} (env : Env T)
    (d : dataset) (n : nat) (w : World T) :
  fshape (x_test d) = [n; 28; 28; 1]%nat ->
  fshape (x_test_noisy d) = [n; 28; 28; 1]%nat ->
  wf (x_test_noisy d) ->
  (10 <= n)%nat ->
  show_noisy d w =
    (Ok tt, add_log w (grid_events (20, 4)%nat 2 10 (x_test d) "Original"
                                   (x_test_noisy d) "Noisy")) /\
  exists decoded,
    fst (model_predict env autoencoder (x_test_noisy d) w) = Ok decoded /\
    fshape decoded = [n; 28; 28; 1]%nat /\
    show_denoised env autoencoder d w =
      (Ok tt, add_log w (Predicted (x_test_noisy d)
                         :: grid_events (20, 6)%nat 3 10 (x_test_noisy d) "Noisy"
                                        decoded "Denoised")).
Proof.
  intros Hc Hn Hwf Hten. split.
  - now apply (show_noisy_ok d n).
  - now apply (show_denoised_ok env d n).
Qed.

Lemma visualizations_render_pairs_witness :
  show_noisy sample_data sample_world =
    (Ok tt, add_log sample_world
              (grid_events (20, 4)%nat 2 10 (x_test sample_data) "Original"
                           (x_test_noisy sample_data) "Noisy")) /\
  exists decoded,
    fst (model_predict sample_env autoencoder (x_test_noisy sample_data) sample_world)
      = Ok decoded /\
    fshape decoded = [10; 28; 28; 1]%nat /\
    show_denoised sample_env autoencoder sample_data sample_world =
      (Ok tt, add_log sample_world
                (Predicted (x_test_noisy sample_data)
                 :: grid_events (20, 6)%nat 3 10 (x_test_noisy sample_data) "Noisy"
                                decoded "Denoised")).
Proof.
  apply (visualizations_render_pairs sample_env sample_data 10 sample_world).
  - reflexivity.
  - reflexivity.
  - vm_compute. reflexivity.
  - apply Nat.le_refl.
Defined.

(* ===================================================================== *)
(** * What a run can and cannot put in the log *)
(* ===================================================================== *)

Section OnlyLogs.
Context {T : Type} {N : Numeric T} (env : Env T).
Local Open Scope string_scope.
Local Open Scope list_scope.
Local Open Scope nat_scope.

Lemma only_logs_lift (P : event T -> bool) {A} (r : result A) : only_logs P (lift r).
Proof. intros w. exists []. now rewrite add_log_nil. Qed.

Lemma only_logs_ret (P : event T -> bool) {A} (a : A) : only_logs P (ret a).
Proof. intros w. exists []. now rewrite add_log_nil. Qed.

Lemma only_logs_emit (P : event T -> bool) e : P e = true -> only_logs P (emit e).
Proof. intros He w. exists [e]. simpl. now rewrite He. Qed.

Lemma only_logs_bind (P : event T -> bool) {A B} (m : M T A) (k : A -> M T B) :
  only_logs P m -> (forall a, only_logs P (k a)) -> only_logs P (bind m k).
Proof.
  intros Hm Hk w. destruct (Hm w) as (evs1 & E1 & P1). unfold bind.
  destruct (m w) as [[a|e] w1]; simpl in E1; subst w1.
  - destruct (Hk a (add_log w evs1)) as (evs2 & E2 & P2).
    exists (evs1 ++ evs2). rewrite E2, add_log_app, forallb_app, P1, P2. now split.
  - now exists evs1.
Qed.

Lemma only_logs_for_range (P : event T -> bool) body n :
  (forall i, only_logs P (body i)) -> forall i, only_logs P (for_range i n body).
Proof.
  intros Hbody. induction n as [|n IH]; intros i; simpl.
  - apply only_logs_ret.
  - apply only_logs_bind; [apply Hbody|]. intros _. apply IH.
Qed.

Lemma only_logs_subplot rows n index : only_logs (@is_plot T) (plt_subplot rows n index).
Proof.
  unfold plt_subplot.
  destruct (_ && _)%bool; [now apply only_logs_emit|apply only_logs_lift].
Qed.

Lemma only_logs_weaken (P Q : event T -> bool) {A} (m : M T A) :
  (forall e, P e = true -> Q e = true) -> only_logs P m -> only_logs Q m.
Proof.
  intros HPQ Hm w. destruct (Hm w) as (evs & E & HP).
  exists evs. split; [exact E|]. revert HP. now apply forallb_impl.
Qed.

Ltac logs :=
  repeat first
    [ apply only_logs_bind; [|intros ?]
    | apply only_logs_for_range; intros ?
    | apply only_logs_subplot
    | apply only_logs_emit; reflexivity
    | apply only_logs_lift
    | apply only_logs_ret ].

(** The first figure only plots, whether it succeeds or not. *)
Lemma show_noisy_logs (d : dataset) : only_logs (@is_plot T) (show_noisy d).
Proof. unfold show_noisy, plt_figure, plt_imshow, plt_title, plt_axis, plt_show. logs. Qed.

Lemma model_predict_logs m x : only_logs plot_or_predict (model_predict env m x).
Proof.
  unfold model_predict. apply only_logs_bind; [now apply only_logs_emit|].
  intros _ w. exists []. now rewrite add_log_nil.
Qed.

(** The last cell only predicts and plots, whether it succeeds or not. *)
Lemma show_denoised_logs m (d : dataset) :
  only_logs plot_or_predict (show_denoised env m d).
Proof.
  unfold show_denoised. apply only_logs_bind; [apply model_predict_logs|].
  intros decoded.
  apply (only_logs_weaken (@is_plot T)).
  - intros e He. unfold plot_or_predict. now rewrite He.
  - unfold plt_figure, plt_imshow, plt_title, plt_axis, plt_show. logs.
Qed.

Lemma saved_paths_app (l1 l2 : list (event T)) :
  saved_paths (l1 ++ l2) = saved_paths l1 ++ saved_paths l2.
Proof. apply flat_map_app. Qed.

Lemma fit_calls_app (l1 l2 : list (event T)) :
  fit_calls (l1 ++ l2) = fit_calls l1 ++ fit_calls l2.
Proof. apply flat_map_app. Qed.

(** Plotting and predicting neither save nor fit. *)
Lemma plot_or_predict_quiet (evs : list (event T)) :
  forallb plot_or_predict evs = true -> saved_paths evs = [] /\ fit_calls evs = [].
Proof.
  induction evs as [|e evs IH]; simpl; [now split|].
  intros He. apply andb_true_iff in He as [He Hevs].
  destruct (IH Hevs) as [IH1 IH2].
  destruct e; try discriminate; simpl; now split.
Qed.

Lemma plot_quiet (evs : list (event T)) :
  forallb (@is_plot T) evs = true -> saved_paths evs = [] /\ fit_calls evs = [].
Proof.
  intros He. apply plot_or_predict_quiet. revert He. apply forallb_impl.
  intros e He. unfold plot_or_predict. now rewrite He.
Qed.

(** The first cell leaves the log and the parameters as they are. *)
Lemma load_and_corrupt_frame (w : World T) :
  log (snd (load_and_corrupt env w)) = log w /\
  model_weights (snd (load_and_corrupt env w)) = model_weights w.
Proof.
  unfold load_and_corrupt, bind. rewrite load_eq.
  destruct (mnist_load_data env) as [raw|e]; simpl; [|now split].
  rewrite normalise_eq.
  destruct (preprocess (fst (fst raw))) as [a|e]; simpl; [|now split].
  destruct (preprocess (fst (snd raw))) as [b|e]; simpl; [|now split].
  rewrite corrupt_eq. now split.
Qed.

(** The second cell always succeeds: it builds the model, compiles it
    with Adam by name and binary cross-entropy, and prints the summary. *)
Lemma define_model_eq (w : World T) :
  define_model w =
  (Ok autoencoder,
   add_log w [Compiled "adam" "binary_crossentropy";
              Summary (layers autoencoder)
                      (total_params (layers autoencoder) (input_shape autoencoder))]).
Proof.
  unfold define_model, bind, lift. rewrite build_autoencoder_ok.
  unfold model_compile, model_summary, emit, ret, add_log. simpl.
  rewrite <- app_assoc. reflexivity.
Qed.

(** The third cell: [fit] is called, and only when it has returned is the
    model saved, with the parameters training gave it; the save is in the
    log when the file has been written. *)
Lemma train_and_save_eq (d : dataset) (w : World T) :
  train_and_save env d w =
  match train env (model_weights w) (training_args d) with
  | (Ok _, W') =>
      match save env "denoising_autoencoder.h5" W' with
      | Ok _ =>
          (Ok tt, mk_world (rng w) W'
                    (log w ++ [FitCalled (training_args d); FitReturned;
                               Saved "denoising_autoencoder.h5" W']))
      | Raise e =>
          (Raise e, mk_world (rng w) W'
                      (log w ++ [FitCalled (training_args d); FitReturned]))
      end
  | (Raise e, W') =>
      (Raise e, mk_world (rng w) W' (log w ++ [FitCalled (training_args d)]))
  end.
Proof.
  unfold train_and_save, model_fit, model_save, bind, emit, add_log, training_args.
  simpl. destruct (train env _ _) as [[[]|e] W']; simpl; [|reflexivity].
  destruct (save env _ W') as [[]|e]; repeat rewrite <- app_assoc; reflexivity.
Qed.
End OnlyLogs.

(* ===================================================================== *)
(** * The whole run *)
(* ===================================================================== *)

Section RunFacts.
Context {T : Type} {N : Numeric T} (env : Env T).
Local Open Scope string_scope.
Local Open Scope list_scope.
Local Open Scope nat_scope.

Lemma bind_run {A B} (m : M T A) (k : A -> M T B) w :
  bind m k w =
  match fst (m w) with
  | Ok a => k a (snd (m w))
  | Raise e => (Raise e, snd (m w))
  end.
Proof. unfold bind. destruct (m w) as [[a|e] w1]; reflexivity. Qed.

(** C7. In every run, whatever the corpus, whatever training does and
    whether or not the file can be written: either the run ends in an
    exception and nothing has been saved, or [fit] is called (without
    callbacks), returns, and the very next call saves the trained
    parameters to [denoising_autoencoder.h5]; no other save happens before
    or after.  A run that completes saves exactly once. *)
Theorem saved_once_after_training (w : World T) :
  exists evs,
    log (snd (notebook env w)) = log w ++ evs /\
    ((fst (notebook env w) <> Ok tt /\ saved_paths evs = []) \/
     (exists pre a W' post,
        evs = pre ++ [FitCalled a; FitReturned; Saved "denoising_autoencoder.h5" W']
                  ++ post /\
        saved_paths pre = [] /\ fit_calls pre = [] /\
        saved_paths post = [] /\ fit_calls post = [] /\
        callbacks a = [] /\
        train env (model_weights w) a = (Ok tt, W'))) /\
    (fst (notebook env w) = Ok tt -> saved_paths evs = ["denoising_autoencoder.h5"]).
Proof.
  unfold notebook. rewrite bind_run.
  destruct (load_and_corrupt_frame env w) as [Hlog Hw].
  destruct (load_and_corrupt env w) as [[d|e] w1]; cbn [fst snd] in *.
  2:{ exists []. rewrite app_nil_r. split; [exact Hlog|].
      split; [left; split; [discriminate|reflexivity]|discriminate]. }
  rewrite bind_run.
  destruct (show_noisy_logs d w1) as (evs2 & E2 & P2).
  destruct (plot_quiet evs2 P2) as [S2 F2].
  destruct (show_noisy d w1) as [[[]|e] w2]; cbn [fst snd] in *; subst w2.
  2:{ exists evs2. cbn [log add_log]. rewrite Hlog. split; [reflexivity|].
      split; [left; split; [discriminate|exact S2]|discriminate]. }
  rewrite bind_run, define_model_eq. cbn [fst snd].
  rewrite bind_run, train_and_save_eq. cbn [model_weights add_log]. rewrite Hw.
  destruct (train env (model_weights w) (training_args d)) as [[[]|e] W'] eqn:Htrain;
    cbn [fst snd].
  2:{ eexists. cbn [log add_log]. rewrite Hlog, <- !app_assoc.
      split; [reflexivity|].
      split; [left; split; [discriminate|]|discriminate].
      rewrite !saved_paths_app, S2. reflexivity. }
  destruct (save env "denoising_autoencoder.h5" W') as [[]|e]; cbn [fst snd].
  2:{ eexists. cbn [log add_log]. rewrite Hlog, <- !app_assoc.
      split; [reflexivity|].
      split; [left; split; [discriminate|]|discriminate].
      rewrite !saved_paths_app, S2. reflexivity. }
  match goal with |- context [show_denoised env autoencoder d ?w4] =>
    destruct (show_denoised_logs env autoencoder d w4) as (evs5 & E5 & P5);
    destruct (show_denoised env autoencoder d w4) as [r5 w5] end.
  cbn [snd] in E5. subst w5. cbn [fst snd log add_log].
  destruct (plot_or_predict_quiet evs5 P5) as [S5 F5].
  exists (evs2
          ++ [Compiled "adam" "binary_crossentropy";
              Summary (layers autoencoder)
                      (total_params (layers autoencoder) (input_shape autoencoder))]
          ++ [FitCalled (training_args d); FitReturned;
              Saved "denoising_autoencoder.h5" W']
          ++ evs5).
  split; [|split].
  - rewrite Hlog, <- !app_assoc. reflexivity.
  - right.
    exists (evs2
            ++ [Compiled "adam" "binary_crossentropy";
                Summary (layers autoencoder)
                        (total_params (layers autoencoder) (input_shape autoencoder))]),
           (training_args d), W', evs5.
    rewrite saved_paths_app, fit_calls_app, S2, F2, <- !app_assoc.
    repeat split; assumption.
  - intros _. rewrite !saved_paths_app, S2, S5. reflexivity.
Qed.

End RunFacts.


(* ===================================================================== *)
(** * More on the Preprocessor *)
(* ===================================================================== *)

(** X1. What the Preprocessor does with every raw array: a 0-d array has no
    length and raises [TypeError]; a batch of [N] samples is accepted
    exactly when it is empty or each sample has 784 elements, and raises
    [ValueError] (from [np.reshape]) exactly otherwise. *)
Theorem preprocess_outcomes (raw : u8array) :
  match ushape raw with
  | [] => preprocess raw = Raise TypeError
  | N :: rest =>
      (preprocess raw = Ok (clean_of raw N) <-> (N = 0 \/ size_of rest = 784)%nat) /\
      (preprocess raw = Raise ValueError <-> (N <> 0 /\ size_of rest <> 784)%nat)
  end.
Proof.
  destruct (ushape raw) as [|N rest] eqn:Hs.
  - unfold preprocess, astype_float32, true_divide. simpl. now rewrite Hs.
  - assert (E : preprocess raw =
                if Nat.eqb (N * 784) (N * size_of rest)
                then Ok (clean_of raw N) else Raise ValueError).
    { unfold preprocess, astype_float32, true_divide. simpl. rewrite Hs. simpl.
      unfold reshape. cbn [dtype fshape fdata]. rewrite map_map.
      replace (size_of [N; 28; 28; 1]%nat) with (N * 784)%nat by reflexivity.
      rewrite size_of_cons. reflexivity. }
    rewrite E. destruct (Nat.eqb_spec (N * 784) (N * size_of rest)) as [He|He].
    + split; split.
      * intros _. destruct N; [now left|right]. nia.
      * reflexivity.
      * discriminate.
      * intros [HN Hr]. exfalso. apply Hr. nia.
    + split; split.
      * discriminate.
      * intros [-> | Hr]; exfalso; apply He; [reflexivity|now rewrite Hr].
      * intros _. split; [intros ->; now apply He|intros Hr; apply He; now rewrite Hr].
      * reflexivity.
Qed.

Lemma all_uint8_In v : is_uint8 v = true -> In v all_uint8.
Proof.
  unfold is_uint8. intros Hv. apply andb_true_iff in Hv as [H0 H1].
  apply Z.leb_le in H0. apply Z.leb_le in H1.
  rewrite <- (Z2Nat.id v) by lia. apply in_map, in_seq. lia.
Qed.

(** X2. Normalisation keeps the order of the gray levels, strictly: a
    brighter pixel stays brighter, so no two levels collapse; black goes
    to 0 and white to 1. *)
Theorem scale_strictly_monotone (u v : Z) :
  is_uint8 u = true -> is_uint8 v = true -> u < v ->
  SFltb (scale u) (scale v) = true /\
  scale 0 = fzero /\ scale 255 = fone float32.
Proof.
  intros Hu Hv Huv. split; [|split; reflexivity].
  pose (tbl := map (fun a => (a, scale a)) all_uint8).
  assert (Hall : forallb (fun a => forallb (fun b =>
                    implb (fst a <? fst b) (SFltb (snd a) (snd b))) tbl) tbl = true)
    by (vm_compute; reflexivity).
  assert (Hin : forall a, is_uint8 a = true -> In (a, scale a) tbl).
  { intros a Ha. apply (in_map (fun a => (a, scale a))). now apply all_uint8_In. }
  rewrite forallb_forall in Hall. specialize (Hall _ (Hin u Hu)).
  rewrite forallb_forall in Hall. specialize (Hall _ (Hin v Hv)).
  apply Z.ltb_lt in Huv. simpl in Hall. now rewrite Huv in Hall.
Qed.

Lemma scale_strictly_monotone_witness :
  SFltb (scale 100) (scale 101) = true /\
  scale 0 = fzero /\ scale 255 = fone float32.
Proof.
  apply (scale_strictly_monotone 100 101); reflexivity.
Defined.

(** X3. Every normalised pixel is a canonical [float32] whose exact
    value lies between 0 and 1 and is the quotient [v / 255] up to half a
    unit in the last place, at most [2^-25]. *)
Theorem scale_accuracy (v : Z) :
  is_uint8 v = true ->
  valid_binary 24 128 (scale v) = true /\
  exists q, SF2Q (scale v) = Some q /\
            (0 <= q <= 1)%Q /\
            (Qabs (q - inject_Z v / 255) <= 1 # (2 ^ 25))%Q.
Proof.
  intros Hv.
  pose (check := fun v =>
          valid_binary 24 128 (scale v) &&
          match SF2Q (scale v) with
          | Some q => Qle_bool 0 q && Qle_bool q 1 &&
                      Qle_bool (Qabs (q - inject_Z v / 255)) (1 # (2 ^ 25))
          | None => false
          end).
  assert (Hc : check v = true).
  { revert v Hv. apply uint8_cases. vm_compute. reflexivity. }
  unfold check in Hc. apply andb_true_iff in Hc as [Hvalid Hq].
  split; [exact Hvalid|].
  destruct (SF2Q (scale v)) as [q|]; [|discriminate].
  apply andb_true_iff in Hq as [Hq Hacc]. apply andb_true_iff in Hq as [H0 H1].
  exists q. split; [reflexivity|].
  split; [split|]; now apply Qle_bool_iff.
Qed.

Lemma scale_accuracy_witness :
  valid_binary 24 128 (scale 128) = true /\
  exists q, SF2Q (scale 128) = Some q /\
            (0 <= q <= 1)%Q /\
            (Qabs (q - inject_Z 128 / 255) <= 1 # (2 ^ 25))%Q.
Proof.
  apply (scale_accuracy 128). reflexivity.
Defined.

(* ===================================================================== *)
(** * More on the first cell *)
(* ===================================================================== *)

Lemma wf_clean_of raw N :
  ushape raw = [N; 28; 28]%nat -> u8_wf raw -> wf (clean_of raw N).
Proof.
  unfold u8_wf, wf, clean_of. intros Hs Hwf. simpl fdata. simpl fshape.
  rewrite length_map, Hwf, Hs. reflexivity.
Qed.

Lemma wf_noisy x st : wf x -> wf (noisy x st).
Proof.
  unfold wf, noisy. simpl. intros Hwf.
  rewrite zip_with_length; [exact Hwf|]. now rewrite deviates_length.
Qed.

Lemma noisy_nth x st i :
  wf x -> (i < size_of (fshape x))%nat ->
  nth i (fdata (noisy x st)) fzero =
  noisy_pixel (dtype x) noise_factor (nth i (fdata x) fzero) (gauss st (pos st + i)).
Proof.
  unfold wf. intros Hwf Hi. simpl.
  rewrite (zip_with_nth _ _ _ i fzero fzero) by (rewrite ?deviates_length; lia).
  now rewrite deviates_nth.
Qed.

(** X4. The four arrays of the first cell are well formed, and each noisy
    tensor has the shape of its clean tensor: [(N, 28, 28, 1)] with the
    [N] of its split. *)
Theorem first_cell_shapes {T : Type} (env : Env T) (w : World T)
    (tr ltr te lte : u8array) (Ntr Nte : nat) :
  mnist_load_data env = Ok ((tr, ltr), (te, lte)) ->
  ushape tr = [Ntr; 28; 28]%nat -> ushape te = [Nte; 28; 28]%nat ->
  u8_wf tr -> u8_wf te ->
  exists d w',
    load_and_corrupt env w = (Ok d, w') /\
    fshape (x_train d) = [Ntr; 28; 28; 1]%nat /\
    fshape (x_train_noisy d) = [Ntr; 28; 28; 1]%nat /\
    fshape (x_test d) = [Nte; 28; 28; 1]%nat /\
    fshape (x_test_noisy d) = [Nte; 28; 28; 1]%nat /\
    wf (x_train d) /\ wf (x_test d) /\ wf (x_train_noisy d) /\ wf (x_test_noisy d).
Proof.
  intros Hl Htr Hte Hwtr Hwte. do 2 eexists. split.
  - apply (load_and_corrupt_eq env tr ltr te lte Ntr Nte w Hl Htr Hte).
  - cbn [x_train x_test x_train_noisy x_test_noisy].
    repeat split; try apply wf_noisy; now apply wf_clean_of.
Qed.

Lemma sample_raw_wf : u8_wf sample_raw.
Proof. vm_compute. reflexivity. Qed.

Lemma sample_test_wf : u8_wf sample_test.
Proof. vm_compute. reflexivity. Qed.

Lemma first_cell_shapes_witness :
  exists d w',
    load_and_corrupt sample_env sample_world = (Ok d, w') /\
    fshape (x_train d) = [1; 28; 28; 1]%nat /\
    fshape (x_train_noisy d) = [1; 28; 28; 1]%nat /\
    fshape (x_test d) = [10; 28; 28; 1]%nat /\
    fshape (x_test_noisy d) = [10; 28; 28; 1]%nat /\
    wf (x_train d) /\ wf (x_test d) /\ wf (x_train_noisy d) /\ wf (x_test_noisy d).
Proof.
  apply (first_cell_shapes sample_env sample_world
           sample_raw (sample_labels 1) sample_test (sample_labels 10) 1 10).
  - reflexivity.
  - reflexivity.
  - reflexivity.
  - exact sample_raw_wf.
  - exact sample_test_wf.
Defined.

(** X5. The first cell takes one deviate per element and never uses one
    twice: training element [i] gets deviate [i] of the generator, test
    element [i] gets deviate [Ntr * 784 + i], and the generator ends
    [(Ntr + Nte) * 784] deviates further; the log and the parameters are
    untouched. *)
Theorem noise_draws_are_disjoint {T : Type} (env : Env T) (w : World T)
    (tr ltr te lte : u8array) (Ntr Nte : nat) :
  mnist_load_data env = Ok ((tr, ltr), (te, lte)) ->
  ushape tr = [Ntr; 28; 28]%nat -> ushape te = [Nte; 28; 28]%nat ->
  u8_wf tr -> u8_wf te ->
  exists d w',
    load_and_corrupt env w = (Ok d, w') /\
    rng w' = advance (rng w) ((Ntr + Nte) * 784) /\
    log w' = log w /\ model_weights w' = model_weights w /\
    (forall i, (i < Ntr * 784)%nat ->
       nth i (fdata (x_train_noisy d)) fzero =
       noisy_pixel float32 noise_factor (nth i (fdata (x_train d)) fzero)
                   (gauss (rng w) (pos (rng w) + i))) /\
    (forall i, (i < Nte * 784)%nat ->
       nth i (fdata (x_test_noisy d)) fzero =
       noisy_pixel float32 noise_factor (nth i (fdata (x_test d)) fzero)
                   (gauss (rng w) (pos (rng w) + Ntr * 784 + i))).
Proof.
  intros Hl Htr Hte Hwtr Hwte. do 2 eexists. split.
  - apply (load_and_corrupt_eq env tr ltr te lte Ntr Nte w Hl Htr Hte).
  - cbn [x_train x_test x_train_noisy x_test_noisy rng log model_weights set_rng].
    split; [|split; [reflexivity|split; [reflexivity|split]]].
    + unfold advance. simpl. f_equal. lia.
    + intros i Hi. apply (noisy_nth (clean_of tr Ntr)); [now apply wf_clean_of|exact Hi].
    + intros i Hi.
      rewrite (noisy_nth (clean_of te Nte)); [|now apply wf_clean_of|exact Hi].
      unfold advance. cbn [gauss pos]. reflexivity.
Qed.

Lemma noise_draws_are_disjoint_witness :
  exists d w',
    load_and_corrupt sample_env sample_world = (Ok d, w') /\
    rng w' = advance (rng sample_world) ((1 + 10) * 784) /\
    log w' = log sample_world /\ model_weights w' = model_weights sample_world /\
    (forall i, (i < 1 * 784)%nat ->
       nth i (fdata (x_train_noisy d)) fzero =
       noisy_pixel float32 noise_factor (nth i (fdata (x_train d)) fzero)
                   (gauss (rng sample_world) (pos (rng sample_world) + i))) /\
    (forall i, (i < 10 * 784)%nat ->
       nth i (fdata (x_test_noisy d)) fzero =
       noisy_pixel float32 noise_factor (nth i (fdata (x_test d)) fzero)
                   (gauss (rng sample_world) (pos (rng sample_world) + 1 * 784 + i))).
Proof.
  apply (noise_draws_are_disjoint sample_env sample_world
           sample_raw (sample_labels 1) sample_test (sample_labels 10) 1 10).
  - reflexivity.
  - reflexivity.
  - reflexivity.
  - exact sample_raw_wf.
  - exact sample_test_wf.
Defined.

(* ===================================================================== *)
(** * More on the Noise Injector *)
(* ===================================================================== *)

Lemma sf_eqb_eq a b : sf_eqb a b = true -> a = b.
Proof.
  destruct a as [s1|s1| |s1 m1 e1], b as [s2|s2| |s2 m2 e2]; simpl;
    try discriminate; try reflexivity.
  - intros H. apply Bool.eqb_prop in H. now subst.
  - intros H. apply Bool.eqb_prop in H. now subst.
  - intros H. apply andb_true_iff in H as [H He].
    apply andb_true_iff in H as [Hs Hm].
    apply Bool.eqb_prop in Hs. apply Pos.eqb_eq in Hm. apply Z.eqb_eq in He.
    now subst.
Qed.

Lemma zip_with_repeat {A B C} (f : A -> B -> C) (l : list A) (b : B) :
  zip_with f l (repeat b (length l)) = map (fun a => f a b) l.
Proof.
  induction l as [|a l IH]; simpl; [reflexivity|]. now rewrite IH.
Qed.

Lemma map_const_repeat {A B} (z : B) (l : list A) :
  map (fun _ => z) l = repeat z (length l).
Proof.
  induction l as [|a l IH]; simpl; [reflexivity|]. now rewrite IH.
Qed.

Lemma deviates_const st n z :
  (forall k, gauss st k = z) -> deviates st n = repeat z n.
Proof.
  intros Hz. unfold deviates.
  rewrite (map_ext _ (fun _ => z)) by (intros; apply Hz).
  now rewrite map_const_repeat, length_seq.
Qed.

(** X6. Where the generator hands out zeros the Noise Injector changes
    nothing: it returns the clean batch converted to [float64], and the
    conversion keeps every value exactly. *)
Theorem zero_noise_is_identity (raw : u8array) (N : nat) (st : RandomState) :
  ushape raw = [N; 28; 28]%nat -> u8_wf raw -> u8_valid raw = true ->
  (forall k, gauss st k = fzero) ->
  fst (inject_noise noise_factor (clean_of raw N) st) =
    Ok (mk_f float64 [N; 28; 28; 1]%nat
             (map (fun v => convert float32 float64 (scale v)) (udata raw))) /\
  Forall (fun v => exists q q', SF2Q (convert float32 float64 (scale v)) = Some q /\
                                SF2Q (scale v) = Some q' /\ (q == q')%Q)
         (udata raw).
Proof.
  intros Hs Hwf Hv Hz. split.
  - rewrite inject_noise_noisy. unfold noisy, clean_of.
    cbn [fst fshape fdata dtype]. do 2 f_equal.
    rewrite (deviates_const st _ fzero Hz).
    replace (size_of [N; 28; 28; 1]%nat) with (length (map scale (udata raw))).
    + rewrite zip_with_repeat, map_map. apply map_ext_in. intros v Hin.
      apply sf_eqb_eq.
      unfold u8_valid in Hv. rewrite forallb_forall in Hv. specialize (Hv v Hin).
      clear Hin. revert v Hv.
      apply (uint8_cases (fun v =>
               sf_eqb (noisy_pixel float32 noise_factor (scale v) fzero)
                      (convert float32 float64 (scale v)))).
      vm_compute. reflexivity.
    + rewrite length_map. unfold u8_wf in Hwf. rewrite Hwf, Hs. reflexivity.
  - apply Forall_forall. intros v Hin.
    unfold u8_valid in Hv. rewrite forallb_forall in Hv. specialize (Hv v Hin).
    pose (check := fun v =>
            match SF2Q (convert float32 float64 (scale v)), SF2Q (scale v) with
            | Some q, Some q' => Qeq_bool q q'
            | _, _ => false
            end).
    assert (Hc : check v = true).
    { clear Hin. revert v Hv. apply uint8_cases. vm_compute. reflexivity. }
    unfold check in Hc.
    destruct (SF2Q (convert float32 float64 (scale v))) as [q|]; [|discriminate].
    destruct (SF2Q (scale v)) as [q'|]; [|discriminate].
    exists q, q'. repeat split. now apply Qeq_bool_iff.
Qed.

(** A generator that only hands out zeros. *)
Lemma zero_noise_is_identity_witness :
  fst (inject_noise noise_factor (clean_of sample_raw 1) (mk_rng (fun _ => fzero) 0)) =
    Ok (mk_f float64 [1; 28; 28; 1]%nat
             (map (fun v => convert float32 float64 (scale v)) (udata sample_raw))) /\
  Forall (fun v => exists q q', SF2Q (convert float32 float64 (scale v)) = Some q /\
                                SF2Q (scale v) = Some q' /\ (q == q')%Q)
         (udata sample_raw).
Proof.
  apply (zero_noise_is_identity sample_raw 1 (mk_rng (fun _ => fzero) 0)).
  - reflexivity.
  - exact sample_raw_wf.
  - vm_compute. reflexivity.
  - intros k. reflexivity.
Defined.

Lemma npy_clip_idempotent t x :
  npy_clip (npy_clip x fzero (fone t)) fzero (fone t) = npy_clip x fzero (fone t).
Proof.
  destruct x as [s|s| |s m e].
  - destruct t, s; reflexivity.
  - destruct t, s; reflexivity.
  - destruct t; reflexivity.
  - destruct s; [destruct t; reflexivity|].
    rewrite npy_clip_positive.
    destruct (SFltb (S754_finite false m e) (fone t)) eqn:Hlt.
    + now rewrite npy_clip_positive, Hlt.
    + destruct t; reflexivity.
Qed.

(** X7. Clipping to [0, 1] is idempotent: [np.clip] applied to an array
    it has already clipped returns the same array. *)
Theorem clip_idempotent (a : farray) :
  clip (clip a py_0 py_1) py_0 py_1 = clip a py_0 py_1.
Proof.
  unfold clip. cbn [dtype fshape fdata]. f_equal. rewrite map_map.
  apply map_ext. intros x.
  replace (cast (dtype a) py_0) with fzero by (destruct (dtype a); reflexivity).
  replace (cast (dtype a) py_1) with (fone (dtype a)) by (destruct (dtype a); reflexivity).
  apply npy_clip_idempotent.
Qed.

(** X8. [np.clip] does not hide a NaN: if the deviate drawn for an element
    is NaN, the noisy element is NaN, and so fails the test of lying
    between 0 and 1. *)
Theorem nan_deviate_gives_nan (x : farray) (st : RandomState) (i : nat) :
  wf x -> (i < size_of (fshape x))%nat ->
  gauss st (pos st + i) = S754_nan ->
  exists y,
    fst (inject_noise noise_factor x st) = Ok y /\
    nth i (fdata y) fzero = S754_nan /\
    in_unit float64 (nth i (fdata y) fzero) = false.
Proof.
  intros Hwf Hi Hnan. exists (noisy x st). rewrite inject_noise_noisy.
  split; [reflexivity|].
  rewrite (noisy_nth x st i Hwf Hi), Hnan.
  assert (E : noisy_pixel (dtype x) noise_factor (nth i (fdata x) fzero) S754_nan
              = S754_nan).
  { unfold noisy_pixel, noisy_sum, fadd.
    change (fmul float64 (cast float64 noise_factor) (noise_sample S754_nan))
      with S754_nan.
    destruct (convert (dtype x) float64 (nth i (fdata x) fzero)); reflexivity. }
  rewrite E. split; reflexivity.
Qed.

Lemma nan_deviate_gives_nan_witness :
  exists y,
    fst (inject_noise noise_factor sample_clean (mk_rng (fun _ => S754_nan) 0)) = Ok y /\
    nth 2 (fdata y) fzero = S754_nan /\
    in_unit float64 (nth 2 (fdata y) fzero) = false.
Proof.
  apply (nan_deviate_gives_nan sample_clean (mk_rng (fun _ => S754_nan) 0) 2).
  - reflexivity.
  - vm_compute. apply Nat.leb_le. reflexivity.
  - reflexivity.
Defined.

(* ===================================================================== *)
(** * More on the model *)
(* ===================================================================== *)

Lemma run_layers_has_shape {T : Type} {N : Numeric T} (ls : list layer)
    (k : nat) (W : weights T) (h w c h' w' c' : nat) (x : image T) :
  forallb same_padded ls = true ->
  infer_shape ls [h; w; c]%nat = Ok [h'; w'; c']%nat ->
  has_shape h w c x = true ->
  has_shape h' w' c' (run_layers ls k W x) = true.
Proof.
  intros Hpad Hs Hx. apply has_shape_shaped in Hx.
  destruct (run_layers_shaped ls k W h w c _ x Hpad Hs Hx) as (h1 & w1 & c1 & E & Hy).
  injection E as -> -> ->. now apply has_shape_shaped.
Qed.

(** X9. Shape inference is sound for the forward pass: a stack of
    same-padded layers turns a sample of shape [(h, w, c)] into a sample of
    exactly the shape Keras infers for the stack, whatever the
    parameters. *)
Theorem forward_shape_is_inferred {T : Type} {N : Numeric T} (ls : list layer)
    (W : weights T) (h w c h' w' c' : nat) (x : image T) :
  forallb same_padded ls = true ->
  infer_shape ls [h; w; c]%nat = Ok [h'; w'; c']%nat ->
  has_shape h w c x = true ->
  has_shape h' w' c' (run_layers ls 0 W x) = true.
Proof. apply run_layers_has_shape. Qed.

Lemma forward_shape_is_inferred_witness :
  has_shape 14 14 32
    (run_layers [Conv2D 32 (3, 3)%nat relu same; MaxPooling2D (2, 2)%nat same]
                0 sample_weights (repeat (repeat [fzero] 28) 28)) = true.
Proof.
  apply (forward_shape_is_inferred
           [Conv2D 32 (3, 3)%nat relu same; MaxPooling2D (2, 2)%nat same]
           sample_weights 28 28 1 14 14 32); reflexivity.
Defined.

(** X10. The encoder (the first four layers) turns a 28 by 28 by 1 sample
    into a code of shape 7 by 7 by 16, and the decoder (the other five)
    turns any such code into a 28 by 28 by 1 sample; the model is the
    decoder after the encoder. *)
Theorem encoder_decoder_shapes {T : Type} {N : Numeric T} (W : weights T)
    (x z : image T) :
  has_shape 28 28 1 x = true ->
  has_shape 7 7 16 z = true ->
  has_shape 7 7 16 (run_layers (firstn 4 (layers autoencoder)) 0 W x) = true /\
  has_shape 28 28 1 (run_layers (skipn 4 (layers autoencoder)) 4 W z) = true /\
  run_layers (layers autoencoder) 0 W x =
    run_layers (skipn 4 (layers autoencoder)) 4 W
               (run_layers (firstn 4 (layers autoencoder)) 0 W x).
Proof.
  intros Hx Hz. split; [|split].
  - apply (run_layers_has_shape _ 0 W 28 28 1); [reflexivity|reflexivity|exact Hx].
  - apply (run_layers_has_shape _ 4 W 7 7 16); [reflexivity|reflexivity|exact Hz].
  - rewrite <- (firstn_skipn 4 (layers autoencoder)) at 1.
    now rewrite run_layers_app.
Qed.

Lemma encoder_decoder_shapes_witness :
  has_shape 7 7 16
    (run_layers (firstn 4 (layers autoencoder)) 0 sample_weights
                (repeat (repeat [fzero] 28) 28)) = true /\
  has_shape 28 28 1
    (run_layers (skipn 4 (layers autoencoder)) 4 sample_weights
                (repeat (repeat (repeat fzero 16) 7) 7)) = true /\
  run_layers (layers autoencoder) 0 sample_weights (repeat (repeat [fzero] 28) 28) =
    run_layers (skipn 4 (layers autoencoder)) 4 sample_weights
               (run_layers (firstn 4 (layers autoencoder)) 0 sample_weights
                           (repeat (repeat [fzero] 28) 28)).
Proof.
  apply (encoder_decoder_shapes sample_weights); reflexivity.
Defined.

Lemma out_len_same_1 n k : out_len same n k 1 = n.
Proof. unfold out_len. rewrite Nat.div_1_r. lia. Qed.

Lemma quarter_up n : (((n + 2 - 1) / 2 + 2 - 1) / 2 * 2 * 2 = 4 * ((n + 3) / 4))%nat.
Proof.
  replace (n + 2 - 1)%nat with (n + 1)%nat by lia.
  replace ((n + 1) / 2 + 2 - 1)%nat with ((n + 1) / 2 + 1)%nat by lia.
  replace ((n + 1) / 2 + 1)%nat with ((n + 1 + 1 * 2) / 2)%nat
    by (rewrite Nat.div_add by lia; reflexivity).
  rewrite Nat.Div0.div_div.
  replace (n + 1 + 1 * 2)%nat with (n + 3)%nat by lia.
  change (2 * 2)%nat with 4%nat. lia.
Qed.

Lemma quarter_up_fixed n : (4 * ((n + 3) / 4) = n <-> n mod 4 = 0)%nat.
Proof.
  pose proof (Nat.div_mod_eq n 4) as Hn.
  pose proof (Nat.mod_upper_bound n 4 ltac:(lia)) as Hr.
  pose proof (Nat.div_mod_eq (n + 3) 4) as Hn3.
  pose proof (Nat.mod_upper_bound (n + 3) 4 ltac:(lia)) as Hr3.
  lia.
Qed.

(** X11. Fed samples of another size, the same stack would return them
    rounded up to the next multiple of 4 in height and width: it gives the
    input size back exactly when both are multiples of 4, as 28 is. *)
Theorem stack_rounds_up_to_multiple_of_four {T : Type} {N : Numeric T}
    (W : weights T) (h w : nat) (x : image T) :
  has_shape h w 1 x = true ->
  has_shape (4 * ((h + 3) / 4)) (4 * ((w + 3) / 4)) 1
            (run_layers (layers autoencoder) 0 W x) = true /\
  ((4 * ((h + 3) / 4) = h /\ 4 * ((w + 3) / 4) = w)%nat
   <-> (h mod 4 = 0 /\ w mod 4 = 0)%nat).
Proof.
  intros Hx. split.
  - apply (run_layers_has_shape _ 0 W h w 1); [reflexivity| |exact Hx].
    change (layers autoencoder) with
      [ Conv2D 32 (3, 3)%nat relu same; MaxPooling2D (2, 2)%nat same;
        Conv2D 16 (3, 3)%nat relu same; MaxPooling2D (2, 2)%nat same;
        Conv2D 16 (3, 3)%nat relu same; UpSampling2D (2, 2)%nat;
        Conv2D 32 (3, 3)%nat relu same; UpSampling2D (2, 2)%nat;
        Conv2D 1 (3, 3)%nat sigmoid same ].
    cbn [infer_shape compute_output_shape axis_out rbind].
    rewrite !out_len_same_1. unfold out_len. now rewrite !quarter_up.
  - now rewrite !quarter_up_fixed.
Qed.

Lemma stack_rounds_up_to_multiple_of_four_witness :
  has_shape (4 * ((2 + 3) / 4)) (4 * ((3 + 3) / 4)) 1
            (run_layers (layers autoencoder) 0 sample_weights
                        [[[fzero]; [fzero]; [fzero]]; [[fzero]; [fzero]; [fzero]]]) = true /\
  ((4 * ((2 + 3) / 4) = 2 /\ 4 * ((3 + 3) / 4) = 3)%nat
   <-> (2 mod 4 = 0 /\ 3 mod 4 = 0)%nat).
Proof.
  apply (stack_rounds_up_to_multiple_of_four sample_weights 2 3). reflexivity.
Defined.

(** Adding NaN gives NaN. *)
Lemma fadd_nan_r t a b : is_nan b = true -> is_nan (fadd t a b) = true.
Proof.
  destruct b; try discriminate. intros _. destruct a; reflexivity.
Qed.

(** X24. A NaN bias in the last convolution spoils the whole output:
    whatever the other parameters and the sample, every element of the
    28 by 28 by 1 output is NaN, and none lies between 0 and 1. *)
Theorem nan_bias_gives_nan_output {K : SigmoidKernel} (L : SigmoidLaws K)
    (W : weights spec_float) (x : image spec_float) :
  is_nan (bias (W 8%nat) 0%nat) = true ->
  has_shape 28 28 1 x = true ->
  has_shape 28 28 1 (run_layers (layers autoencoder) 0 W x) = true /\
  all_pixels (fun v => is_nan v = true /\ in_unit float32 v = false)
             (run_layers (layers autoencoder) 0 W x).
Proof.
  intros Hb Hx. split.
  - apply (run_layers_has_shape _ 0 W 28 28 1); [reflexivity|reflexivity|exact Hx].
  - change (layers autoencoder)
      with (firstn 8 (layers autoencoder) ++ [Conv2D 1 (3, 3)%nat sigmoid same]).
    rewrite run_layers_app. cbn [run_layers apply_layer].
    change (0 + length (firstn 8 (layers autoencoder)))%nat with 8%nat.
    unfold all_pixels, conv2d.
    apply Forall_forall. intros row Hrow. apply in_map_iff in Hrow as (i & <- & _).
    apply Forall_forall. intros px Hpx. apply in_map_iff in Hpx as (j & <- & _).
    apply Forall_forall. intros v Hv. apply in_map_iff in Hv as (f & <- & Hf).
    assert (f = 0%nat) as -> by (simpl in Hf; lia).
    cbn [activate nsigmoid nadd float32_kernels].
    match goal with |- is_nan (sigmoid32 ?s) = true /\ _ =>
      assert (Hn : is_nan (sigmoid32 s) = true)
        by (apply sigmoid32_nan, fadd_nan_r, Hb);
      destruct (sigmoid32 s); try discriminate; split; reflexivity
    end.
Qed.

(** Parameters that are 0 but for NaN biases. *)
Lemma nan_bias_gives_nan_output_witness :
  let W := fun _ : nat => mk_conv (fun _ _ _ _ => fzero) (fun _ => S754_nan) in
  has_shape 28 28 1 (run_layers (layers autoencoder) 0 W white_image) = true /\
  all_pixels (fun v => is_nan v = true /\ in_unit float32 v = false)
             (run_layers (layers autoencoder) 0 W white_image).
Proof.
  apply (nan_bias_gives_nan_output hard_sigmoid_laws
           (fun _ : nat => mk_conv (fun _ _ _ _ => fzero) (fun _ => S754_nan))
           white_image); reflexivity.
Defined.

(* ===================================================================== *)
(** * More on the whole run *)
(* ===================================================================== *)

Section RunOutcomes.
Context {T : Type} {N : Numeric T} (env : Env T).
Local Open Scope string_scope.
Local Open Scope list_scope.
Local Open Scope nat_scope.

(** A loop whose body succeeds [k] times and then raises. *)
Lemma for_range_raises (body : nat -> M T unit) (ev : nat -> list (event T))
    (e : exn) (evk : list (event T)) k :
  forall n i w,
    k < n ->
    (forall j w', i <= j < i + k -> body j w' = (Ok tt, add_log w' (ev j))) ->
    (forall w', body (i + k) w' = (Raise e, add_log w' evk)) ->
    for_range i n body w = (Raise e, add_log w (concat (map ev (seq i k)) ++ evk)).
Proof.
  induction k as [|k IH]; intros n i w Hk Hok Hfail.
  - destruct n as [|n]; [lia|]. simpl. unfold bind.
    specialize (Hfail w). rewrite Nat.add_0_r in Hfail. now rewrite Hfail.
  - destruct n as [|n]; [lia|]. simpl. unfold bind. rewrite Hok by lia.
    rewrite (IH n (S i)).
    + now rewrite add_log_app, app_assoc.
    + lia.
    + intros j w' Hj. apply Hok. lia.
    + intros w'. replace (S i + k) with (i + S k) by lia. apply Hfail.
Qed.

(** X12. For a corpus of well-formed 28 by 28 images with at least ten
    test images, a training that returns and a file that can be written,
    the whole notebook runs to the end without an exception; its log is
    exactly: the first figure, compile, summary, fit, the save of the
    trained parameters, predict, the last figure; the model is left with
    the trained parameters, which are also the ones the denoised images
    are computed with. *)
Theorem notebook_completes (w : World T) (tr ltr te lte : u8array)
    (Ntr Nte : nat) (W' : weights T) :
  let d := first_cell_data tr te Ntr Nte (rng w) in
  mnist_load_data env = Ok ((tr, ltr), (te, lte)) ->
  ushape tr = [Ntr; 28; 28] -> ushape te = [Nte; 28; 28] ->
  u8_wf te -> 10 <= Nte ->
  train env (model_weights w) (training_args d) = (Ok tt, W') ->
  save env "denoising_autoencoder.h5" W' = Ok tt ->
  exists decoded,
    (forall w0, model_weights w0 = W' ->
                fst (model_predict env autoencoder (x_test_noisy d) w0) = Ok decoded) /\
    notebook env w =
    (Ok tt,
     mk_world (advance (rng w) ((Ntr + Nte) * 784)) W'
       (log w
        ++ grid_events (20, 4) 2 10 (x_test d) "Original" (x_test_noisy d) "Noisy"
        ++ [Compiled "adam" "binary_crossentropy";
            Summary (layers autoencoder)
                    (total_params (layers autoencoder) (input_shape autoencoder));
            FitCalled (training_args d); FitReturned;
            Saved "denoising_autoencoder.h5" W';
            Predicted (x_test_noisy d)]
        ++ grid_events (20, 6) 3 10 (x_test_noisy d) "Noisy" decoded "Denoised")).
Proof.
  intros d Hl Htr Hte Hwf Hten Htrain Hsave.
  pose proof (load_and_corrupt_eq env tr ltr te lte Ntr Nte w Hl Htr Hte) as E1.
  fold (first_cell_data tr te Ntr Nte (rng w)) in E1. fold d in E1.
  assert (Hsn : fshape (x_test_noisy d) = [Nte; 28; 28; 1]) by reflexivity.
  assert (Hwn : wf (x_test_noisy d)).
  { apply wf_noisy. now apply wf_clean_of. }
  set (w4 := mk_world (advance (advance (rng w) (Ntr * 784)) (Nte * 784)) W'
               (log w
                ++ grid_events (20, 4) 2 10 (x_test d) "Original" (x_test_noisy d) "Noisy"
                ++ [Compiled "adam" "binary_crossentropy";
                    Summary (layers autoencoder)
                      (total_params (layers autoencoder) (input_shape autoencoder));
                    FitCalled (training_args d); FitReturned;
                    Saved "denoising_autoencoder.h5" W'])).
  destruct (show_denoised_ok env d Nte w4 Hsn Hwn Hten) as (decoded & Hp & _ & Hshow).
  exists decoded. split.
  - intros w0 Hw0. rewrite <- Hp. unfold model_predict, bind, emit.
    cbn [fst model_weights]. now rewrite Hw0.
  - unfold notebook. rewrite bind_run, E1. cbn [fst snd].
    rewrite bind_run, (show_noisy_ok d Nte) by (try reflexivity; assumption).
    cbn [fst snd].
    rewrite bind_run, define_model_eq. cbn [fst snd].
    rewrite bind_run, train_and_save_eq.
    cbn [model_weights rng log add_log set_rng]. rewrite Htrain, Hsave.
    cbn [fst snd]. rewrite <- !app_assoc. cbn [app].
    subst w4. rewrite Hshow. unfold add_log. cbn [rng model_weights log].
    rewrite <- !app_assoc. cbn [app].
    replace (advance (advance (rng w) (Ntr * 784)) (Nte * 784))
      with (advance (rng w) ((Ntr + Nte) * 784)); [reflexivity|].
    unfold advance. cbn [gauss pos]. f_equal. lia.
Qed.

(** One step of the first plotting loop at the first missing sample: the
    cell of the grid is selected, then indexing fails. *)
Lemma draw_pair_out_of_range rows n top ttop bottom tbottom Ntop rest i (w : World T) :
  fshape top = Ntop :: rest -> Ntop <= i -> i < n -> 1 <= rows ->
  bind (plt_subplot rows n (i + 1)) (fun _ =>
  bind (lift (sample_image top i)) (fun img =>
  bind (plt_imshow img "gray") (fun _ =>
  bind (plt_title ttop) (fun _ =>
  bind (plt_axis "off") (fun _ =>
  bind (plt_subplot rows n (i + 1 + n)) (fun _ =>
  bind (lift (sample_image bottom i)) (fun img =>
  bind (plt_imshow img "gray") (fun _ =>
  bind (plt_title tbottom) (fun _ =>
  plt_axis "off"))))))))) w
  = (Raise IndexError, add_log w [Subplot rows n (i + 1)]).
Proof.
  intros Hs Hi Hn Hrows. unfold bind at 1.
  rewrite plt_subplot_ok by nia.
  unfold bind at 1, lift at 1.
  now rewrite (sample_image_out_of_range top Ntop rest i Hs Hi).
Qed.

(** X13. With fewer than ten test images the run stops in the first
    plotting loop with [IndexError], after drawing the pairs that exist
    and selecting the cell of the first missing one; the model is never
    built, trained or saved. *)
Theorem too_few_test_images (w : World T) (tr ltr te lte : u8array) (Ntr Nte : nat) :
  let d := first_cell_data tr te Ntr Nte (rng w) in
  mnist_load_data env = Ok ((tr, ltr), (te, lte)) ->
  ushape tr = [Ntr; 28; 28] -> ushape te = [Nte; 28; 28] ->
  Nte < 10 ->
  fst (notebook env w) = Raise IndexError /\
  log (snd (notebook env w)) =
    log w
    ++ Figure (20, 4)
       :: concat (map (pair_events 2 10 (x_test d) "Original" (x_test_noisy d) "Noisy")
                      (seq 0 Nte))
    ++ [Subplot 2 10 (Nte + 1)] /\
  model_weights (snd (notebook env w)) = model_weights w.
Proof.
  intros d Hl Htr Hte Hfew.
  pose proof (load_and_corrupt_eq env tr ltr te lte Ntr Nte w Hl Htr Hte) as E1.
  fold (first_cell_data tr te Ntr Nte (rng w)) in E1. fold d in E1.
  unfold notebook. rewrite bind_run, E1. cbn [fst snd].
  rewrite bind_run.
  assert (E2 : forall w1 : World T,
            show_noisy d w1 =
            (Raise IndexError,
             add_log w1 (Figure (20, 4)
                         :: concat (map (pair_events 2 10 (x_test d) "Original"
                                                     (x_test_noisy d) "Noisy")
                                        (seq 0 Nte))
                         ++ [Subplot 2 10 (Nte + 1)]))).
  { intros w1. unfold show_noisy.
    unfold bind at 1, plt_figure, emit. cbv beta iota. unfold bind at 1.
    rewrite (for_range_raises _ (pair_events 2 10 (x_test d) "Original"
                                             (x_test_noisy d) "Noisy")
                              IndexError [Subplot 2 10 (Nte + 1)] Nte).
    - unfold add_log. cbn [rng model_weights log]. now rewrite <- app_assoc.
    - exact Hfew.
    - intros j w' Hj. apply (draw_pair_ok 2 10 _ _ _ _ Nte); try reflexivity; lia.
    - intros w'. cbn [Nat.add].
      apply (draw_pair_out_of_range 2 10 _ _ _ _ Nte [28; 28; 1]);
        try reflexivity; lia. }
  rewrite E2. cbn [fst snd log model_weights add_log set_rng]. repeat split.
Qed.

Lemma grid_events_plot fs rows n top ttop bottom tbottom :
  forallb (@is_plot T) (grid_events fs rows n top ttop bottom tbottom) = true.
Proof.
  unfold grid_events. cbn [forallb is_plot andb]. rewrite forallb_app.
  apply andb_true_iff. split; [|reflexivity].
  induction (seq 0 n) as [|i l IH]; [reflexivity|exact IH].
Qed.

(** X14. If [fit] raises, the run ends with that exception right there:
    the log ends with the [fit] call, and no file is saved. *)
Theorem training_failure_saves_nothing (w : World T) (tr ltr te lte : u8array)
    (Ntr Nte : nat) (e : exn) (W' : weights T) :
  let d := first_cell_data tr te Ntr Nte (rng w) in
  mnist_load_data env = Ok ((tr, ltr), (te, lte)) ->
  ushape tr = [Ntr; 28; 28] -> ushape te = [Nte; 28; 28] ->
  10 <= Nte ->
  train env (model_weights w) (training_args d) = (Raise e, W') ->
  fst (notebook env w) = Raise e /\
  log (snd (notebook env w)) =
    log w
    ++ grid_events (20, 4) 2 10 (x_test d) "Original" (x_test_noisy d) "Noisy"
    ++ [Compiled "adam" "binary_crossentropy";
        Summary (layers autoencoder)
                (total_params (layers autoencoder) (input_shape autoencoder));
        FitCalled (training_args d)] /\
  saved_paths (log (snd (notebook env w))) = saved_paths (log w).
Proof.
  intros d Hl Htr Hte Hten Htrain.
  pose proof (load_and_corrupt_eq env tr ltr te lte Ntr Nte w Hl Htr Hte) as E1.
  fold (first_cell_data tr te Ntr Nte (rng w)) in E1. fold d in E1.
  assert (Hlog : notebook env w =
            (Raise e,
             mk_world (advance (advance (rng w) (Ntr * 784)) (Nte * 784)) W'
               (log w
                ++ grid_events (20, 4) 2 10 (x_test d) "Original" (x_test_noisy d) "Noisy"
                ++ [Compiled "adam" "binary_crossentropy";
                    Summary (layers autoencoder)
                      (total_params (layers autoencoder) (input_shape autoencoder));
                    FitCalled (training_args d)]))).
  { unfold notebook. rewrite bind_run, E1. cbn [fst snd].
    rewrite bind_run, (show_noisy_ok d Nte) by (try reflexivity; assumption).
    cbn [fst snd].
    rewrite bind_run, define_model_eq. cbn [fst snd].
    rewrite bind_run, train_and_save_eq.
    cbn [model_weights rng log add_log set_rng]. rewrite Htrain.
    cbn [fst snd]. rewrite <- !app_assoc. reflexivity. }
  rewrite Hlog. cbn [fst snd log]. repeat split.
  rewrite !saved_paths_app.
  rewrite (proj1 (plot_quiet _ (grid_events_plot _ _ _ _ _ _ _))).
  cbn. now rewrite app_nil_r.
Qed.

(** X15. If the corpus cannot be loaded, the run ends with the loader's
    exception before anything else happens: the world is unchanged. *)
Theorem load_failure_stops_the_run (w : World T) (e : exn) :
  mnist_load_data env = Raise e -> notebook env w = (Raise e, w).
Proof.
  intros Hl. unfold notebook. rewrite bind_run.
  unfold load_and_corrupt. rewrite bind_run, load_eq, Hl. reflexivity.
Qed.

(** X16. Both figures draw into the same twenty cells, rows 0 and 1 of
    columns 0 to 9, each once.  For the first figure these are all the
    cells of its grid of two rows; the last figure's grid has three rows,
    and its third row stays empty. *)
Theorem figures_fill_two_rows (d : dataset) (n : nat) (w : World T) :
  fshape (x_test d) = [n; 28; 28; 1] ->
  fshape (x_test_noisy d) = [n; 28; 28; 1] ->
  wf (x_test_noisy d) ->
  10 <= n ->
  exists first last,
    snd (show_noisy d w) = add_log w first /\
    snd (show_denoised env autoencoder d w) = add_log w last /\
    cells first = flat_map (fun i => [(0, i); (1, i)]) (seq 0 10) /\
    cells last = flat_map (fun i => [(0, i); (1, i)]) (seq 0 10) /\
    (forall c, ~ In (2, c) (cells last)).
Proof.
  intros Hc Hn Hwf Hten.
  destruct (show_denoised_ok env d n w Hn Hwf Hten) as (decoded & _ & _ & E2).
  do 2 eexists. rewrite E2, (show_noisy_ok d n w Hc Hn Hten). cbn [snd].
  split; [reflexivity|]. split; [reflexivity|]. split; [reflexivity|].
  split; [reflexivity|].
  intros c Hin. cbv in Hin.
  repeat (destruct Hin as [Hin|Hin]; [discriminate|]). exact Hin.
Qed.

(** X17. The picture shown for sample [i] is a well-formed 28 by 28 array of
    the batch's dtype holding the 784 elements of sample [i], in order. *)
Theorem sample_image_is_sample (a : farray) (n i k : nat) :
  fshape a = [n; 28; 28; 1] -> wf a -> i < n -> k < 784 ->
  exists img,
    sample_image a i = Ok img /\
    fshape img = [28; 28] /\ dtype img = dtype a /\ wf img /\
    nth k (fdata img) fzero = nth (i * 784 + k) (fdata a) fzero.
Proof.
  intros Hs Hwf Hi Hk. exists (picture a i).
  split; [now apply (sample_image_ok a n)|].
  split; [reflexivity|]. split; [reflexivity|].
  unfold wf in *. rewrite Hs in Hwf.
  change (size_of [n; 28; 28; 1]) with (n * 784) in Hwf.
  unfold picture. cbn [fdata fshape]. split.
  - rewrite length_firstn, length_skipn, Hwf.
    change (size_of [28; 28]) with 784. nia.
  - rewrite nth_firstn, nth_skipn.
    apply Nat.ltb_lt in Hk. now rewrite Hk.
Qed.

Lemma length_concat_const {A} (ls : list (list A)) m :
  Forall (fun l => length l = m) ls -> length (concat ls) = length ls * m.
Proof.
  induction 1 as [|l ls Hl _ IH]; simpl; [reflexivity|].
  rewrite length_app, Hl, IH. reflexivity.
Qed.

Lemma Forall_concat_intro {A} (P : A -> Prop) (ls : list (list A)) :
  Forall (Forall P) ls -> Forall P (concat ls).
Proof.
  induction 1 as [|l ls Hl _ IH]; simpl; [constructor|].
  apply Forall_app. now split.
Qed.

(** The elements of a batch of samples of shape [(h, w, c)], flattened. *)
Lemma length_flatten (ys : list (image T)) h w c :
  Forall (shaped h w c) ys ->
  length (concat (concat (concat ys))) = length ys * h * w * c.
Proof.
  intros Hys.
  assert (H1 : Forall (fun y : image T => length y = h) ys).
  { revert Hys. apply Forall_impl. now intros y [Hh _]. }
  assert (H2 : Forall (fun row : list (list T) =>
                 length row = w /\ Forall (fun px => length px = c) row) (concat ys)).
  { apply Forall_concat_intro. revert Hys. apply Forall_impl. now intros y [_ Hr]. }
  assert (H3 : Forall (fun px : list T => length px = c) (concat (concat ys))).
  { apply Forall_concat_intro. revert H2. apply Forall_impl. now intros row [_ Hp]. }
  rewrite (length_concat_const _ c H3).
  rewrite (length_concat_const _ w); [|revert H2; apply Forall_impl; now intros row [Hw _]].
  now rewrite (length_concat_const _ h H1).
Qed.

(** The array [predict] returns for a batch that has samples. *)
Lemma model_predict_eq (x : farray) (n : nat) (w : World T) :
  fshape x = [n; 28; 28; 1] -> wf x -> 0 < n ->
  exists xs,
    to_batch env x = Ok xs /\ length xs = n /\ Forall (shaped 28 28 1) xs /\
    model_predict env autoencoder x w =
    (Ok (of_batch env [28; 28; 1]
           (map (run_layers (layers autoencoder) 0 (model_weights w)) xs)),
     add_log w [Predicted x]).
Proof.
  intros Hs Hwf Hn.
  destruct (to_batch_shaped env x n 28 28 1 Hs Hwf) as (xs & Hxs & Hlen & Hsh).
  exists xs. split; [exact Hxs|]. split; [exact Hlen|]. split; [exact Hsh|].
  unfold model_predict, bind, emit. cbn [model_weights].
  rewrite Hxs. cbn [rbind]. rewrite predict_result; [reflexivity| |].
  - intros ->. simpl in Hlen. lia.
  - apply Forall_forallb. revert Hsh. apply Forall_impl.
    intros img. apply has_shape_shaped.
Qed.

(** The array made of a batch of [n] samples of 28 by 28 by 1 is well
    formed. *)
Lemma of_batch_wf (ys : list (image T)) :
  Forall (shaped 28 28 1) ys -> wf (of_batch env [28; 28; 1] ys).
Proof.
  intros Hys. unfold wf, of_batch. cbn [fdata fshape].
  rewrite length_map, (length_flatten ys 28 28 1 Hys).
  change (size_of (length ys :: [28; 28; 1])) with (length ys * 784). lia.
Qed.

(** X22. If the file cannot be written, the run ends with the exception of
    [save], after the training and before [predict]: the model holds the
    trained parameters, no save is in the log, and the last figure is
    never drawn. *)
Theorem save_failure_stops_the_run (w : World T) (tr ltr te lte : u8array)
    (Ntr Nte : nat) (e : exn) (W' : weights T) :
  let d := first_cell_data tr te Ntr Nte (rng w) in
  mnist_load_data env = Ok ((tr, ltr), (te, lte)) ->
  ushape tr = [Ntr; 28; 28] -> ushape te = [Nte; 28; 28] ->
  10 <= Nte ->
  train env (model_weights w) (training_args d) = (Ok tt, W') ->
  save env "denoising_autoencoder.h5" W' = Raise e ->
  notebook env w =
  (Raise e,
   mk_world (advance (rng w) ((Ntr + Nte) * 784)) W'
     (log w
      ++ grid_events (20, 4) 2 10 (x_test d) "Original" (x_test_noisy d) "Noisy"
      ++ [Compiled "adam" "binary_crossentropy";
          Summary (layers autoencoder)
                  (total_params (layers autoencoder) (input_shape autoencoder));
          FitCalled (training_args d); FitReturned])) /\
  saved_paths (log (snd (notebook env w))) = saved_paths (log w).
Proof.
  intros d Hl Htr Hte Hten Htrain Hsave.
  pose proof (load_and_corrupt_eq env tr ltr te lte Ntr Nte w Hl Htr Hte) as E1.
  fold (first_cell_data tr te Ntr Nte (rng w)) in E1. fold d in E1.
  assert (Hrun : notebook env w =
            (Raise e,
             mk_world (advance (rng w) ((Ntr + Nte) * 784)) W'
               (log w
                ++ grid_events (20, 4) 2 10 (x_test d) "Original" (x_test_noisy d) "Noisy"
                ++ [Compiled "adam" "binary_crossentropy";
                    Summary (layers autoencoder)
                      (total_params (layers autoencoder) (input_shape autoencoder));
                    FitCalled (training_args d); FitReturned]))).
  { unfold notebook. rewrite bind_run, E1. cbn [fst snd].
    rewrite bind_run, (show_noisy_ok d Nte) by (try reflexivity; assumption).
    cbn [fst snd].
    rewrite bind_run, define_model_eq. cbn [fst snd].
    rewrite bind_run, train_and_save_eq.
    cbn [model_weights rng log add_log set_rng]. rewrite Htrain, Hsave.
    cbn [fst snd]. rewrite <- !app_assoc. cbn [app].
    replace (advance (advance (rng w) (Ntr * 784)) (Nte * 784))
      with (advance (rng w) ((Ntr + Nte) * 784)); [reflexivity|].
    unfold advance. cbn [gauss pos]. f_equal. lia. }
  split; [exact Hrun|]. rewrite Hrun. cbn [snd log].
  rewrite !saved_paths_app.
  rewrite (proj1 (plot_quiet _ (grid_events_plot _ _ _ _ _ _ _))).
  cbn. now rewrite app_nil_r.
Qed.

End RunOutcomes.

(** X18. On the [float32] kernels, [predict] on a well-formed batch of [n]
    samples of 28 by 28 by 1, [n] not 0, returns a well-formed [float32]
    array of shape [(n, 28, 28, 1)], each element the conversion of a value
    of the sigmoid, which is NaN or lies between 0 and 1; it logs nothing
    but the call. *)
Theorem predict_returns_batch {K : SigmoidKernel} (L : SigmoidLaws K)
    (env : Env spec_float) (x : farray) (n : nat) (w : World spec_float) :
  fshape x = [n; 28; 28; 1]%nat -> wf x -> (0 < n)%nat ->
  exists decoded,
    model_predict env autoencoder x w = (Ok decoded, add_log w [Predicted x]) /\
    fshape decoded = [n; 28; 28; 1]%nat /\ dtype decoded = float32 /\ wf decoded /\
    Forall (fun f => exists v, f = to_float env v /\
                               (is_nan v = true \/ in_unit float32 v = true))
           (fdata decoded).
Proof.
  intros Hs Hwf Hn.
  destruct (model_predict_eq env x n w Hs Hwf Hn) as (xs & _ & Hlen & Hsh & Hp).
  set (ys := map (run_layers (layers autoencoder) 0 (model_weights w)) xs) in *.
  assert (Hys : Forall (shaped 28 28 1) ys).
  { apply Forall_forall. intros y Hy. apply in_map_iff in Hy as (x0 & <- & Hx0).
    rewrite Forall_forall in Hsh.
    destruct (run_layers_shaped (layers autoencoder) 0 (model_weights w) 28 28 1
                                [28; 28; 1]%nat x0)
      as (h1 & w1 & c1 & E & Hy); [reflexivity|reflexivity|now apply Hsh|].
    now injection E as <- <- <-. }
  exists (of_batch env [28; 28; 1]%nat ys).
  split; [exact Hp|]. split; [|split; [reflexivity|split]].
  - unfold of_batch, ys. cbn [fshape]. now rewrite length_map, Hlen.
  - now apply of_batch_wf.
  - unfold of_batch. cbn [fdata]. apply Forall_forall. intros f Hf.
    apply in_map_iff in Hf as (v & <- & Hv). exists v. split; [reflexivity|].
    assert (Hall : Forall (fun v => is_nan v = true \/ in_unit float32 v = true)
                          (concat (concat (concat ys)))).
    { apply Forall_concat_intro, Forall_concat_intro, Forall_concat_intro.
      apply Forall_forall. intros y Hy. apply in_map_iff in Hy as (x0 & <- & _).
      now apply sigmoid_layer_values. }
    rewrite Forall_forall in Hall. now apply Hall.
Qed.

Lemma notebook_completes_witness :
  let d := first_cell_data sample_raw sample_test 1 10 (rng sample_world) in
  exists decoded,
    (forall w0, model_weights w0 = sample_weights ->
                fst (model_predict sample_env autoencoder (x_test_noisy d) w0)
                = Ok decoded) /\
    notebook sample_env sample_world =
    (Ok tt,
     mk_world (advance (rng sample_world) ((1 + 10) * 784)) sample_weights
       (log sample_world
        ++ grid_events (20, 4)%nat 2 10 (x_test d) "Original" (x_test_noisy d) "Noisy"
        ++ [Compiled "adam" "binary_crossentropy";
            Summary (layers autoencoder)
                    (total_params (layers autoencoder) (input_shape autoencoder));
            FitCalled (training_args d); FitReturned;
            Saved "denoising_autoencoder.h5" sample_weights;
            Predicted (x_test_noisy d)]
        ++ grid_events (20, 6)%nat 3 10 (x_test_noisy d) "Noisy" decoded "Denoised")%list).
Proof.
  apply (notebook_completes sample_env sample_world
           sample_raw (sample_labels 1) sample_test (sample_labels 10) 1 10
           sample_weights).
  - reflexivity.
  - reflexivity.
  - reflexivity.
  - exact sample_test_wf.
  - apply Nat.le_refl.
  - reflexivity.
  - reflexivity.
Defined.

Lemma too_few_test_images_witness :
  let d := first_cell_data sample_raw sample_raw 1 1 (rng sample_world) in
  fst (notebook small_env sample_world) = Raise IndexError /\
  log (snd (notebook small_env sample_world)) =
    (log sample_world
     ++ Figure (20, 4)%nat
        :: concat (map (pair_events 2 10 (x_test d) "Original" (x_test_noisy d) "Noisy")
                       (seq 0 1))
     ++ [Subplot 2 10 (1 + 1)])%list /\
  model_weights (snd (notebook small_env sample_world)) = model_weights sample_world.
Proof.
  apply (too_few_test_images small_env sample_world
           sample_raw (sample_labels 1) sample_raw (sample_labels 1) 1 1).
  - reflexivity.
  - reflexivity.
  - reflexivity.
  - apply Nat.leb_le. reflexivity.
Defined.

Lemma training_failure_saves_nothing_witness :
  let d := first_cell_data sample_raw sample_test 1 10 (rng sample_world) in
  fst (notebook failing_env sample_world) = Raise FrameworkError /\
  log (snd (notebook failing_env sample_world)) =
    (log sample_world
     ++ grid_events (20, 4)%nat 2 10 (x_test d) "Original" (x_test_noisy d) "Noisy"
     ++ [Compiled "adam" "binary_crossentropy";
         Summary (layers autoencoder)
                 (total_params (layers autoencoder) (input_shape autoencoder));
         FitCalled (training_args d)])%list /\
  saved_paths (log (snd (notebook failing_env sample_world))) =
    saved_paths (log sample_world).
Proof.
  apply (training_failure_saves_nothing failing_env sample_world
           sample_raw (sample_labels 1) sample_test (sample_labels 10) 1 10
           FrameworkError sample_weights).
  - reflexivity.
  - reflexivity.
  - reflexivity.
  - apply Nat.le_refl.
  - reflexivity.
Defined.

Lemma load_failure_stops_the_run_witness :
  notebook offline_env sample_world = (Raise ResourceUnavailable, sample_world).
Proof.
  apply (load_failure_stops_the_run offline_env sample_world ResourceUnavailable).
  reflexivity.
Defined.

Lemma figures_fill_two_rows_witness :
  exists first last,
    snd (show_noisy sample_data sample_world) = add_log sample_world first /\
    snd (show_denoised sample_env autoencoder sample_data sample_world)
      = add_log sample_world last /\
    cells first = flat_map (fun i => [(0, i); (1, i)]%nat) (seq 0 10) /\
    cells last = flat_map (fun i => [(0, i); (1, i)]%nat) (seq 0 10) /\
    (forall c, ~ In (2%nat, c) (cells last)).
Proof.
  apply (figures_fill_two_rows sample_env sample_data 10 sample_world).
  - reflexivity.
  - reflexivity.
  - vm_compute. reflexivity.
  - apply Nat.le_refl.
Defined.

Lemma sample_image_is_sample_witness :
  exists img,
    sample_image (x_test sample_data) 3 = Ok img /\
    fshape img = [28; 28]%nat /\ dtype img = dtype (x_test sample_data) /\ wf img /\
    nth 5 (fdata img) fzero = nth (3 * 784 + 5) (fdata (x_test sample_data)) fzero.
Proof.
  apply (sample_image_is_sample (x_test sample_data) 10 3 5).
  - reflexivity.
  - vm_compute. reflexivity.
  - apply Nat.leb_le. reflexivity.
  - apply Nat.leb_le. reflexivity.
Defined.

Lemma predict_returns_batch_witness :
  exists decoded,
    model_predict sample_env autoencoder (x_test_noisy sample_data) sample_world
      = (Ok decoded, add_log sample_world [Predicted (x_test_noisy sample_data)]) /\
    fshape decoded = [10; 28; 28; 1]%nat /\ dtype decoded = float32 /\ wf decoded /\
    Forall (fun f => exists v, f = to_float sample_env v /\
                               (is_nan v = true \/ in_unit float32 v = true))
           (fdata decoded).
Proof.
  apply (predict_returns_batch hard_sigmoid_laws sample_env
           (x_test_noisy sample_data) 10 sample_world).
  - reflexivity.
  - vm_compute. reflexivity.
  - apply Nat.leb_le. reflexivity.
Defined.

Lemma save_failure_stops_the_run_witness :
  let d := first_cell_data sample_raw sample_test 1 10 (rng sample_world) in
  notebook unwritable_env sample_world =
  (Raise OSError,
   mk_world (advance (rng sample_world) ((1 + 10) * 784)) sample_weights
     (log sample_world
      ++ grid_events (20, 4)%nat 2 10 (x_test d) "Original" (x_test_noisy d) "Noisy"
      ++ [Compiled "adam" "binary_crossentropy";
          Summary (layers autoencoder)
                  (total_params (layers autoencoder) (input_shape autoencoder));
          FitCalled (training_args d); FitReturned])%list) /\
  saved_paths (log (snd (notebook unwritable_env sample_world))) =
    saved_paths (log sample_world).
Proof.
  apply (save_failure_stops_the_run unwritable_env sample_world
           sample_raw (sample_labels 1) sample_test (sample_labels 10) 1 10
           OSError sample_weights).
  - reflexivity.
  - reflexivity.
  - reflexivity.
  - apply Nat.le_refl.
  - reflexivity.
  - reflexivity.
Defined.


(* ===================================================================== *)
(** * Reproducibility and what the run does not look at *)
(* ===================================================================== *)

Section Reproducible.
Context {T : Type} {N : Numeric T}.
Local Open Scope string_scope.
Local Open Scope list_scope.
Local Open Scope nat_scope.

(** The first cell's result in one expression, failures included. *)
Lemma load_and_corrupt_fst (env : Env T) (w : World T) :
  fst (load_and_corrupt env w) =
  rbind (mnist_load_data env) (fun l =>
  rbind (preprocess (fst (fst l))) (fun a =>
  rbind (preprocess (fst (snd l))) (fun b =>
  Ok (mk_data a b (noisy a (rng w))
              (noisy b (advance (rng w) (size_of (fshape a)))))))).
Proof.
  unfold load_and_corrupt. rewrite bind_run, load_eq.
  destruct (mnist_load_data env) as [raw|e]; cbn [fst snd rbind]; [|reflexivity].
  rewrite bind_run, normalise_eq.
  destruct (preprocess (fst (fst raw))) as [a|e]; cbn [fst snd rbind]; [|reflexivity].
  destruct (preprocess (fst (snd raw))) as [b|e]; cbn [fst snd rbind]; [|reflexivity].
  rewrite bind_run, corrupt_eq. reflexivity.
Qed.

Lemma noisy_ext x st1 st2 :
  (forall k, gauss st1 (pos st1 + k) = gauss st2 (pos st2 + k)) ->
  noisy x st1 = noisy x st2.
Proof.
  intros Hk. unfold noisy, deviates. do 2 f_equal. apply map_ext. exact Hk.
Qed.

(** X19. The noise is the only source of variation between runs: two runs
    whose generators hand out the same deviates (as after seeding them
    alike) compute the same four arrays from the same corpus, or fail
    alike. *)
Theorem same_seed_same_data (env : Env T) (w1 w2 : World T) :
  (forall k, gauss (rng w1) (pos (rng w1) + k) = gauss (rng w2) (pos (rng w2) + k)) ->
  fst (load_and_corrupt env w1) = fst (load_and_corrupt env w2).
Proof.
  intros Hk. rewrite !load_and_corrupt_fst.
  destruct (mnist_load_data env) as [raw|e]; cbn [rbind]; [|reflexivity].
  destruct (preprocess (fst (fst raw))) as [a|e]; cbn [rbind]; [|reflexivity].
  destruct (preprocess (fst (snd raw))) as [b|e]; cbn [rbind]; [|reflexivity].
  do 2 f_equal; apply noisy_ext; [exact Hk|].
  intros k. unfold advance. cbn [gauss pos].
  rewrite <- !Nat.add_assoc. apply Hk.
Qed.

(** X20. The labels of the corpus are dropped: two runs that differ only in
    the labels they are given do the same. *)
Theorem labels_are_ignored (env : Env T) (w : World T)
    (tr te l1 l2 l1' l2' : u8array) :
  mnist_load_data env = Ok ((tr, l1), (te, l2)) ->
  notebook (mk_env (Ok ((tr, l1'), (te, l2'))) (train env) (save env)
                   (of_float env) (to_float env)) w
  = notebook env w.
Proof.
  intros Hl. unfold notebook, load_and_corrupt.
  rewrite !bind_run, !load_eq, Hl. reflexivity.
Qed.
End Reproducible.

(** A second world with the same deviates ahead, reached after two draws,
    with another log. *)
Lemma same_seed_same_data_witness :
  fst (load_and_corrupt sample_env sample_world) =
  fst (load_and_corrupt sample_env
         (mk_world (mk_rng (fun k => gauss sample_rng (k - 2)) 2) sample_weights
                   [Show])).
Proof.
  apply (same_seed_same_data sample_env sample_world).
  intros k. cbn [rng gauss pos sample_world sample_rng].
  replace (2 + k - 2)%nat with k by lia. reflexivity.
Defined.

Lemma labels_are_ignored_witness :
  notebook (mk_env (Ok ((sample_raw, sample_labels 3), (sample_test, sample_labels 4)))
                   (train sample_env) (save sample_env)
                   (of_float sample_env) (to_float sample_env))
           sample_world
  = notebook sample_env sample_world.
Proof.
  apply (labels_are_ignored sample_env sample_world sample_raw sample_test
           (sample_labels 1) (sample_labels 10)).
  reflexivity.
Defined.

(* ===================================================================== *)
(** * The exact values of the noisy tensors *)
(* ===================================================================== *)

Section Mantissa.
Variables p emx : Z.
Hypothesis p_pos : 0 < p.


Lemma digits2_pos_upper m : Zpos m < 2 ^ Zpos (digits2_pos m).
Proof.
  induction m as [m IH|m IH|]; cbn [digits2_pos].
  - rewrite Pos2Z.inj_succ, Z.pow_succ_r by lia. lia.
  - rewrite Pos2Z.inj_succ, Z.pow_succ_r by lia. lia.
  - reflexivity.
Qed.

Lemma Zdigits2_upper m : 0 <= m -> m < 2 ^ Zdigits2 m.
Proof.
  intros Hm. destruct m as [|q|q]; simpl; [lia|apply digits2_pos_upper|lia].
Qed.

Lemma Zdigits2_nonneg m : 0 <= Zdigits2 m.
Proof. destruct m; simpl; lia. Qed.

Lemma shr_1_div2 mrs : 0 <= shr_m mrs -> shr_m (shr_1 mrs) = shr_m mrs / 2.
Proof.
  destruct mrs as [m r s]; simpl. intros Hm.
  destruct m as [|q|q]; [reflexivity| |lia].
  destruct q as [q|q|]; simpl.
  - change (Zpos q~1) with (2 * Zpos q + 1). apply Z.div_unique with 1; lia.
  - change (Zpos q~0) with (2 * Zpos q). apply Z.div_unique with 0; lia.
  - reflexivity.
Qed.

Lemma pow2_xO n : 2 ^ Zpos n~0 = 2 ^ Zpos n * 2 ^ Zpos n.
Proof.
  change (Zpos n~0) with (2 * Zpos n). replace (2 * Z.pos n) with (Z.pos n + Z.pos n) by lia.
  apply Z.pow_add_r; lia.
Qed.

Lemma pow2_xI n : 2 ^ Zpos n~1 = 2 * (2 ^ Zpos n * 2 ^ Zpos n).
Proof.
  change (Zpos n~1) with (2 * Zpos n + 1). replace (2 * Z.pos n + 1) with (Z.succ (Z.pos n + Z.pos n)) by lia.
  rewrite Z.pow_succ_r by lia. f_equal. apply Z.pow_add_r; lia.
Qed.

Lemma iter_shr_1_div n : forall mrs,
  0 <= shr_m mrs -> shr_m (iter_pos shr_1 n mrs) = shr_m mrs / 2 ^ Zpos n.
Proof.
  induction n as [n IH|n IH|]; intros mrs Hm; cbn [iter_pos].
  - rewrite IH by (apply iter_shr_1_nonneg, shr_1_nonneg, Hm).
    rewrite IH by (apply shr_1_nonneg, Hm).
    rewrite shr_1_div2 by exact Hm.
    rewrite !Z.div_div by lia. now rewrite pow2_xI.
  - rewrite IH by (apply iter_shr_1_nonneg, Hm).
    rewrite IH by exact Hm.
    rewrite Z.div_div by lia. now rewrite pow2_xO.
  - rewrite shr_1_div2 by exact Hm. reflexivity.
Qed.

Lemma fexp_lower e : e - p <= fexp p emx e.
Proof. unfold fexp. lia. Qed.

(** After the shift that rounding prescribes, the mantissa fits the
    precision. *)
Lemma shr_fexp_fits m e l :
  0 <= m -> shr_m (fst (shr_fexp p emx m e l)) < 2 ^ p.
Proof.
  intros Hm. unfold shr_fexp.
  pose proof (fexp_lower (Zdigits2 m + e)) as Hf.
  pose proof (Zdigits2_upper m Hm) as Hd.
  pose proof (Zdigits2_nonneg m) as Hd0.
  assert (Hrec : shr_m (shr_record_of_loc m l) = m)
    by (destruct l as [|[ | | ]]; reflexivity).
  destruct (fexp p emx (Zdigits2 m + e) - e) as [|n|n] eqn:Hn; cbn [shr fst].
  - rewrite Hrec. apply Z.lt_le_trans with (1 := Hd).
    apply Z.pow_le_mono_r; lia.
  - rewrite iter_shr_1_div by (rewrite Hrec; exact Hm). rewrite Hrec.
    apply Z.div_lt_upper_bound; [lia|].
    rewrite <- Z.pow_add_r by lia.
    apply Z.lt_le_trans with (1 := Hd). apply Z.pow_le_mono_r; lia.
  - rewrite Hrec. apply Z.lt_le_trans with (1 := Hd).
    apply Z.pow_le_mono_r; lia.
Qed.

Lemma binary_round_aux_fits sx mx ex lx :
  0 <= mx -> fits p (binary_round_aux p emx sx mx ex lx) = true.
Proof.
  intros Hm. unfold binary_round_aux.
  pose proof (shr_fexp_nonneg p emx mx ex lx Hm) as H1.
  destruct (shr_fexp p emx mx ex lx) as [mrs' e']. simpl in H1.
  pose proof (round_nearest_even_nonneg (shr_m mrs') (loc_of_shr_record mrs') H1) as H2.
  pose proof (shr_fexp_fits (round_nearest_even (shr_m mrs') (loc_of_shr_record mrs'))
                            e' loc_Exact H2) as H3.
  destruct (shr_fexp p emx _ e' loc_Exact) as [mrs'' e'']. simpl in H3.
  destruct (shr_m mrs'') as [|q|q]; try reflexivity.
  destruct (e'' <=? emx - p); [now apply Z.ltb_lt|reflexivity].
Qed.

Lemma binary_normalize_fits m e s : fits p (binary_normalize p emx m e s) = true.
Proof.
  destruct m as [|q|q]; simpl; try reflexivity; unfold binary_round;
    destruct (shl_align _ _ _) as [mz ez]; apply binary_round_aux_fits; lia.
Qed.

Lemma SFmul_fits a b : fits p (SFmul p emx a b) = true.
Proof.
  destruct a, b; simpl; try reflexivity. apply binary_round_aux_fits. lia.
Qed.

Lemma SFadd_fits a b :
  fits p a = true -> fits p b = true -> fits p (SFadd p emx a b) = true.
Proof.
  destruct a as [sa|sa| |sa ma ea], b as [sb|sb| |sb mb eb]; cbn [SFadd]; intros Ha Hb;
    try reflexivity; try assumption.
  - destruct sa, sb; reflexivity.
  - destruct sa, sb; reflexivity.
  - apply binary_normalize_fits.
Qed.
End Mantissa.

(** The exact value of a clipped number lies between 0 and 1, provided
    the number's mantissa fits the 53 bits of a [float64]. *)
Lemma npy_clip_value s :
  is_nan s = false -> fits 53 s = true ->
  exists q, SF2Q (npy_clip s fzero (fone float64)) = Some q /\ (0 <= q <= 1)%Q.
Proof.
  intros Hn Hf.
  assert (Hzero : exists q, SF2Q fzero = Some q /\ (0 <= q <= 1)%Q).
  { exists 0%Q. split; [reflexivity|]. split; unfold Qle; simpl; lia. }
  assert (Hone : exists q, SF2Q (fone float64) = Some q /\ (0 <= q <= 1)%Q).
  { eexists. split; [reflexivity|]. split; unfold Qle; simpl; lia. }
  destruct s as [sg|sg| |sg m e]; try discriminate.
  - destruct sg; exact Hzero.
  - destruct sg; [exact Hzero|exact Hone].
  - destruct sg; [exact Hzero|].
    rewrite npy_clip_positive.
    destruct (SFltb (S754_finite false m e) (fone float64)) eqn:Hlt; [|exact Hone].
    cbn [fits] in Hf. apply Z.ltb_lt in Hf.
    assert (H1 : fone float64 = S754_finite false 4503599627370496 (-52))
      by (vm_compute; reflexivity).
    rewrite H1 in Hlt. clear H1. unfold SFltb in Hlt. cbn [SFcompare] in Hlt.
    assert (He : e < -52 \/ (e = -52 /\ Zpos m < 2 ^ 52)).
    { destruct (Z.compare_spec e (-52)) as [E|E|E]; try discriminate.
      - right. split; [exact E|].
        change (Zpos m < Zpos 4503599627370496). apply Pos2Z.pos_lt_pos.
        unfold Pos.lt, Pos.compare.
        destruct (PosDef.Pos.compare_cont Eq m 4503599627370496%positive);
          [discriminate|reflexivity|discriminate].
      - now left. }
    destruct e as [|pe|pe]; try lia.
    exists (Zpos m # Pos.pow 2 pe)%Q. split; [reflexivity|].
    split; unfold Qle; cbn [Qnum Qden]; [lia|].
    rewrite Z.mul_1_r, Z.mul_1_l, Pos2Z.inj_pow.
    destruct He as [He|[He Hm]].
    + apply Z.lt_le_incl, Z.lt_le_trans with (1 := Hf).
      apply Z.pow_le_mono_r; lia.
    + injection He as ->. apply Z.lt_le_incl. exact Hm.
Qed.

Lemma noisy_pixel_value t x z :
  is_finite (convert t float64 x) = true ->
  fits 53 (convert t float64 x) = true ->
  is_finite z = true ->
  exists q, SF2Q (noisy_pixel t noise_factor x z) = Some q /\ (0 <= q <= 1)%Q.
Proof.
  intros Hx Hfx Hz. unfold noisy_pixel.
  change (cast float64 py_0) with fzero.
  change (cast float64 py_1) with (fone float64).
  apply npy_clip_value.
  - unfold noisy_sum, fadd, fmul. apply SFadd_not_nan; [exact Hx|].
    change (cast float64 noise_factor) with (S754_finite false 4503599627370496 (-53)).
    apply SFmul_finite_not_nan, noise_sample_not_nan, Hz.
  - unfold noisy_sum, fadd, fmul.
    apply SFadd_fits; [reflexivity|exact Hfx|apply SFmul_fits; reflexivity].
Qed.

Lemma scale_double_fits v :
  is_uint8 v = true -> fits 53 (convert float32 float64 (scale v)) = true.
Proof.
  revert v.
  apply (uint8_cases (fun v => fits 53 (convert float32 float64 (scale v)))).
  vm_compute. reflexivity.
Qed.

Lemma noisy_value raw shape st :
  u8_valid raw = true ->
  (forall k, is_finite (gauss st k) = true) ->
  Forall (fun x => exists q, SF2Q x = Some q /\ (0 <= q <= 1)%Q)
         (fdata (noisy (mk_f float32 shape (map scale (udata raw))) st)).
Proof.
  intros Hv Hf. simpl.
  apply (zip_with_Forall _
           (fun a => is_finite (convert float32 float64 a) = true /\
                     fits 53 (convert float32 float64 a) = true)
           (fun z => is_finite z = true)).
  - intros a z [Ha Hfa] Hz. now apply noisy_pixel_value.
  - apply Forall_forall. intros a Ha. apply in_map_iff in Ha as (v & <- & Hv').
    unfold u8_valid in Hv. rewrite forallb_forall in Hv.
    split; [apply scale_double_finite|apply scale_double_fits]; now apply Hv.
  - now apply deviates_finite.
Qed.

(** X21. Under the conditions of C3 the elements of both noisy tensors are
    finite numbers whose exact values, as rationals, lie between 0 and 1:
    the IEEE comparisons of [np.clip] mean what they say, since the
    mantissa of every sum fits the 53 bits of a [float64]. *)
Theorem noisy_tensors_denote_unit {T : Type} (env : Env T) (w : World T)
    (tr ltr te lte : u8array) (Ntr Nte : nat) :
  mnist_load_data env = Ok ((tr, ltr), (te, lte)) ->
  ushape tr = [Ntr; 28; 28]%nat ->
  ushape te = [Nte; 28; 28]%nat ->
  u8_valid tr = true ->
  u8_valid te = true ->
  (forall k, is_finite (gauss (rng w) k) = true) ->
  exists d w',
    load_and_corrupt env w = (Ok d, w') /\
    Forall (fun x => exists q, SF2Q x = Some q /\ (0 <= q <= 1)%Q)
           (fdata (x_train_noisy d)) /\
    Forall (fun x => exists q, SF2Q x = Some q /\ (0 <= q <= 1)%Q)
           (fdata (x_test_noisy d)).
Proof.
  intros Hl Htr Hte Hvtr Hvte Hf. do 2 eexists. split.
  - apply (load_and_corrupt_eq env tr ltr te lte Ntr Nte w Hl Htr Hte).
  - cbn [x_train_noisy x_test_noisy]. unfold clean_of. split.
    + now apply noisy_value.
    + apply noisy_value; [exact Hvte|]. intros k. apply Hf.
Qed.

Lemma noisy_tensors_denote_unit_witness :
  exists d w',
    load_and_corrupt sample_env sample_world = (Ok d, w') /\
    Forall (fun x => exists q, SF2Q x = Some q /\ (0 <= q <= 1)%Q)
           (fdata (x_train_noisy d)) /\
    Forall (fun x => exists q, SF2Q x = Some q /\ (0 <= q <= 1)%Q)
           (fdata (x_test_noisy d)).
Proof.
  apply (noisy_tensors_denote_unit sample_env sample_world
           sample_raw (sample_labels 1) sample_test (sample_labels 10) 1 10).
  - reflexivity.
  - reflexivity.
  - reflexivity.
  - vm_compute. reflexivity.
  - vm_compute. reflexivity.
  - exact sample_rng_finite.
Defined.
